(** * QuickBot task scheduler: a shallow embedding of
    [internal/scheduler/scheduler.py] and the properties of its design note.

    Modelling conventions.
    - A (naive) [datetime] is the number of microseconds since
      0001-01-01T00:00:00, a [timedelta] a number of microseconds; both live on
      the unbounded line [Z].  Python restricts datetimes to the years 1..9999
      and raises [OverflowError] beyond; that range limit is left out of the
      scheduler as modelled first and is added in module [Ranged], which
      gives the schedule calculator and the creation of tasks with it.
    - Python objects of class [ScheduledTask] are mutable and shared between
      [Scheduler.tasks] and the coroutine that executes them, so they live in an
      object store ([objects], addressed by [loc]); the registry maps task ids
      to locations.
    - Effects (attribute assignment, the sqlite table, [datetime.now()],
      [uuid.uuid4()], raised exceptions) are threaded through the monad [M],
      whose state survives a raised exception, as Python's does.
    - [datetime.now()] and [uuid.uuid4()] read oracles ([clock], [uuids]) kept in
      the state; the task handler is an oracle too, indexed by the number of
      earlier invocations ([calls]): it returns or raises, and leaves the task
      and the scheduler as they are.
    - The standard-library parsers and printers ([datetime.fromisoformat],
      [datetime.isoformat], [datetime.strptime], [int], [json.dumps],
      [json.loads]) are the fields of the class [PyLib]; module [Ref] gives an
      executable instance used for the concrete runs.
    - A coroutine started with [asyncio.create_task] runs to completion without
      being interleaved with other scheduler code, and what it raises stays in
      its asyncio task: this is a dispatch whose handler does not suspend.
      Section [Loop] cuts a dispatch at the await of the handler and lets
      polls, other dispatches and public calls run in between.  Logging is
      omitted. *)

From Stdlib Require Import ZArith Lia Ascii String.
From stdpp Require Import gmap strings list fin_maps relations.

Local Open Scope string_scope.
Local Open Scope list_scope.
Local Open Scope Z_scope.

(** ** Time *)

Abbreviation datetime := Z (only parsing).

Module timedelta.
Definition microseconds (n : Z) : Z := n.
Definition seconds (n : Z) : Z := n * 1000000.
Definition minutes (n : Z) : Z := n * 60 * 1000000.
Definition hours (n : Z) : Z := n * 3600 * 1000000.
Definition days (n : Z) : Z := n * 86400 * 1000000.
End timedelta.

(** [dt.date()] as the midnight that starts the day of [dt], and
    [datetime.combine(date, time(hour, minute))]. *)
Definition date (dt : datetime) : datetime :=
  dt `div` timedelta.days 1 * timedelta.days 1.

Definition combine (today : datetime) (hm : Z * Z) : datetime :=
  today + timedelta.hours hm.1 + timedelta.minutes hm.2.

(** ** Enumerations *)

Inductive TaskStatus := PENDING | RUNNING | COMPLETED | FAILED | CANCELLED.

Inductive ScheduleType := ONCE | INTERVAL | CRON.

Definition ScheduleType_value (ty : ScheduleType) : string :=
  match ty with ONCE => "once" | INTERVAL => "interval" | CRON => "cron" end.

(** [ScheduleType(text)]: the member with that value, [None] for the
    [ValueError] of an unknown value. *)
Definition ScheduleType_of_value (text : string) : option ScheduleType :=
  if String.eqb text "once" then Some ONCE
  else if String.eqb text "interval" then Some INTERVAL
  else if String.eqb text "cron" then Some CRON
  else None.

#[global] Instance TaskStatus_eq_dec : EqDecision TaskStatus.
Proof. solve_decision. Defined.

#[global] Instance ScheduleType_eq_dec : EqDecision ScheduleType.
Proof. solve_decision. Defined.

(** ** Payloads: the JSON-representable values *)

#[local] Unset Elimination Schemes.
Inductive json :=
| JNull
| JBool (b : bool)
| JInt (n : Z)
| JStr (s : string)
| JList (items : list json)
| JDict (members : list (string * json)).
#[local] Set Elimination Schemes.

Abbreviation payload_t := (list (string * json)) (only parsing).

(** ** Exceptions and results *)

(** The exceptions below [Exception]: [ValueError] is what the parsers raise,
    [Exception] stands for any other one. *)
Inductive exn :=
| ValueError (msg : string)
| Exception (msg : string).

Inductive result (A : Type) :=
| Ok (a : A)
| Raise (e : exn).
Arguments Ok {A} a.
Arguments Raise {A} e.

(** ** Task objects, rows and the scheduler state *)

Abbreviation loc := nat (only parsing).

Record ScheduledTask := mkTask {
  task_id : string;
  name : string;
  schedule_type : ScheduleType;
  schedule_value : string;
  payload : payload_t;
  session_id : option string;
  enabled : bool;
  status : TaskStatus;
  next_run : datetime;
  last_run : option datetime;
  run_count : Z
}.

Definition with_enabled (b : bool) (t : ScheduledTask) : ScheduledTask :=
  mkTask (task_id t) (name t) (schedule_type t) (schedule_value t) (payload t)
         (session_id t) b (status t) (next_run t) (last_run t) (run_count t).

Definition with_status (st : TaskStatus) (t : ScheduledTask) : ScheduledTask :=
  mkTask (task_id t) (name t) (schedule_type t) (schedule_value t) (payload t)
         (session_id t) (enabled t) st (next_run t) (last_run t) (run_count t).

Definition with_next_run (d : datetime) (t : ScheduledTask) : ScheduledTask :=
  mkTask (task_id t) (name t) (schedule_type t) (schedule_value t) (payload t)
         (session_id t) (enabled t) (status t) d (last_run t) (run_count t).

Definition with_last_run (d : option datetime) (t : ScheduledTask) : ScheduledTask :=
  mkTask (task_id t) (name t) (schedule_type t) (schedule_value t) (payload t)
         (session_id t) (enabled t) (status t) (next_run t) d (run_count t).

Definition with_run_count (n : Z) (t : ScheduledTask) : ScheduledTask :=
  mkTask (task_id t) (name t) (schedule_type t) (schedule_value t) (payload t)
         (session_id t) (enabled t) (status t) (next_run t) (last_run t) n.

(** A row of table [tasks]; the primary key [task_id] is the key of the map
    [db].  Columns [created_at] and [updated_at] are never read back. *)
Record Row := mkRow {
  col_name : string;
  col_schedule_type : string;
  col_schedule_value : string;
  col_payload : string;
  col_session_id : option string;
  col_enabled : Z;
  col_next_run : string;
  col_last_run : option string;
  col_run_count : Z
}.

(** The registered handler: invocation number and task to outcome. *)
Definition Handler := nat → ScheduledTask → result unit.

Record state := mkState {
  tasks : gmap string loc;            (* self.tasks *)
  _running : bool;                    (* self._running *)
  _task_handler : option Handler;     (* self._task_handler *)
  objects : list ScheduledTask;       (* the ScheduledTask objects *)
  db : gmap string Row;               (* table tasks of the sqlite file *)
  clock : nat → datetime;             (* successive datetime.now() readings *)
  ticks : nat;
  uuids : nat → string;               (* successive str(uuid.uuid4()) values *)
  drawn : nat;
  calls : nat                         (* handler invocations so far *)
}.

Definition set_tasks (f : gmap string loc → gmap string loc) (s : state) : state :=
  mkState (f (tasks s)) (_running s) (_task_handler s) (objects s) (db s)
          (clock s) (ticks s) (uuids s) (drawn s) (calls s).

Definition set_running (b : bool) (s : state) : state :=
  mkState (tasks s) b (_task_handler s) (objects s) (db s)
          (clock s) (ticks s) (uuids s) (drawn s) (calls s).

Definition set_handler (h : option Handler) (s : state) : state :=
  mkState (tasks s) (_running s) h (objects s) (db s)
          (clock s) (ticks s) (uuids s) (drawn s) (calls s).

Definition set_objects (f : list ScheduledTask → list ScheduledTask) (s : state) : state :=
  mkState (tasks s) (_running s) (_task_handler s) (f (objects s)) (db s)
          (clock s) (ticks s) (uuids s) (drawn s) (calls s).

Definition set_db (f : gmap string Row → gmap string Row) (s : state) : state :=
  mkState (tasks s) (_running s) (_task_handler s) (objects s) (f (db s))
          (clock s) (ticks s) (uuids s) (drawn s) (calls s).

Definition set_ticks (n : nat) (s : state) : state :=
  mkState (tasks s) (_running s) (_task_handler s) (objects s) (db s)
          (clock s) n (uuids s) (drawn s) (calls s).

Definition set_drawn (n : nat) (s : state) : state :=
  mkState (tasks s) (_running s) (_task_handler s) (objects s) (db s)
          (clock s) (ticks s) (uuids s) n (calls s).

Definition set_calls (n : nat) (s : state) : state :=
  mkState (tasks s) (_running s) (_task_handler s) (objects s) (db s)
          (clock s) (ticks s) (uuids s) (drawn s) n.

(** ** The monad of scheduler code *)

Definition M (A : Type) : Type := state → result A * state.

#[global] Instance M_ret : MRet M := λ A a s, (Ok a, s).

#[global] Instance M_bind : MBind M := λ A B f m s,
  match m s with
  | (Ok a, s') => f a s'
  | (Raise e, s') => (Raise e, s')
  end.

Definition raise {A} (e : exn) : M A := λ s, (Raise e, s).

Definition gets {A} (f : state → A) : M A := λ s, (Ok (f s), s).

Definition modify (f : state → state) : M unit := λ s, (Ok tt, f s).

(** [try: body  except ValueError: handler] *)
Definition try_except_ValueError {A} (body handler : M A) : M A := λ s,
  match body s with
  | (Raise (ValueError _), s') => handler s'
  | r => r
  end.

(** [try: body  except Exception as e: handler] *)
Definition try_except_Exception {A} (body : M A) (handler : exn → M A) : M A := λ s,
  match body s with
  | (Raise e, s') => handler e s'
  | r => r
  end.

(** [try: body  finally: final]; an exception of [final] replaces the outcome
    of [body]. *)
Definition try_finally {A} (body : M A) (final : M unit) : M A := λ s,
  match body s with
  | (r, s') =>
      match final s' with
      | (Ok _, s'') => (r, s'')
      | (Raise e, s'') => (Raise e, s'')
      end
  end.

(** A library call that answers [None] raises [ValueError]. *)
Definition or_ValueError {A} (msg : string) (o : option A) : M A :=
  match o with Some a => mret a | None => raise (ValueError msg) end.

Fixpoint for_each {A} (l : list A) (body : A → M unit) : M unit :=
  match l with
  | [] => mret tt
  | a :: l' => body a ;; for_each l' body
  end.

(** [asyncio.create_task(coro)]: the coroutine runs; its exception, if any, is
    kept by the asyncio task and does not reach the creator. *)
Definition create_task (coro : M unit) : M unit := λ s, (Ok tt, (coro s).2).

Definition datetime_now : M datetime := λ s,
  (Ok (clock s (ticks s)), set_ticks (S (ticks s)) s).

Definition uuid4 : M string := λ s,
  (Ok (uuids s (drawn s)), set_drawn (S (drawn s)) s).

(** Object store: allocation, attribute read and attribute assignment. *)
Definition new (t : ScheduledTask) : M loc := λ s,
  (Ok (length (objects s)), set_objects (λ h, h ++ [t]) s).

Definition read (l : loc) : M ScheduledTask := λ s,
  match objects s !! l with
  | Some t => (Ok t, s)
  | None => (Raise (Exception "dangling reference"), s)
  end.

Definition assign (l : loc) (f : ScheduledTask → ScheduledTask) : M unit :=
  modify (set_objects (alter f l)).

(** ** The standard-library functions the scheduler calls

    A parser answers [None] where Python raises [ValueError].
    [strptime_HM text] is [datetime.strptime(text, "%H:%M").time()] as the pair
    (hour, minute).  Timestamps are naive and payloads are JSON objects, so
    [fromisoformat] has no answer for a text with a UTC offset and [json_loads]
    none for a text that is no object. *)
Class PyLib := {
  fromisoformat : string → option datetime;
  isoformat : datetime → string;
  strptime_HM : string → option (Z * Z);
  int_of_str : string → option Z;
  str_of_int : Z → string;
  json_dumps : payload_t → string;
  json_loads : string → option payload_t
}.

Section Scheduler.
Context `{PyLib}.

(** *** class ScheduledTask *)

(** [ScheduledTask._calculate_next_run]; it reads the attributes
    [schedule_type] and [schedule_value] of [self].  The closing
    [return now + timedelta(hours=1)] of the source is unreachable, the
    enumeration having three members. *)
Definition _calculate_next_run (ty : ScheduleType) (value : string) : M datetime :=
  now ← datetime_now;
  match ty with
  | ONCE =>
      try_except_ValueError
        (or_ValueError "Invalid isoformat string" (fromisoformat value))
        (mret (now + timedelta.hours 1))
  | INTERVAL =>
      try_except_ValueError
        (minutes ← or_ValueError "invalid literal for int()" (int_of_str value);
         mret (now + timedelta.minutes minutes))
        (mret (now + timedelta.hours 1))
  | CRON => mret (now + timedelta.hours 1)
  end.

(** [ScheduledTask.__init__] *)
Definition ScheduledTask_init (id name : string) (ty : ScheduleType)
    (value : string) (p : payload_t) (session : option string)
    (en : bool) : M loc :=
  next ← _calculate_next_run ty value;
  new (mkTask id name ty value p session en PENDING next None 0).

(** [ScheduledTask.update_next_run] *)
Definition update_next_run (self : loc) : M unit :=
  t ← read self;
  match schedule_type t with
  | ONCE => assign self (with_enabled false)
  | _ =>
      next ← _calculate_next_run (schedule_type t) (schedule_value t);
      assign self (with_next_run next)
  end.

(** *** class Scheduler *)

(** [Scheduler._init_db]: [CREATE TABLE IF NOT EXISTS] leaves the rows of an
    existing table as they are. *)
Definition _init_db : M unit := mret tt.

(** The value of a TEXT column is truthy when it is neither NULL nor empty. *)
Definition truthy (text : option string) : bool :=
  match text with
  | Some EmptyString | None => false
  | Some _ => true
  end.

(** The body of the loop of [_load_tasks], for one fetched row. *)
Definition load_row (id : string) (row : Row) : M unit :=
  ty ← or_ValueError "not a valid ScheduleType"
         (ScheduleType_of_value (col_schedule_type row));
  p ← or_ValueError "JSONDecodeError" (json_loads (col_payload row));
  task ← ScheduledTask_init id (col_name row) ty (col_schedule_value row) p
           (col_session_id row) (negb (col_enabled row =? 0));
  next ← or_ValueError "Invalid isoformat string" (fromisoformat (col_next_run row));
  assign task (with_next_run next);;
  last ← (if truthy (col_last_run row)
          then d ← or_ValueError "Invalid isoformat string"
                     (fromisoformat (default EmptyString (col_last_run row)));
               mret (Some d)
          else mret None);
  assign task (with_last_run last);;
  assign task (with_run_count (col_run_count row));;
  modify (set_tasks (insert id task)).

(** [Scheduler._load_tasks]: the rows of [SELECT * FROM tasks WHERE enabled = 1]. *)
Definition _load_tasks : M unit :=
  rows ← gets (λ s : state, List.filter (λ kv, col_enabled kv.2 =? 1) (map_to_list (db s)));
  for_each rows (λ kv, load_row kv.1 kv.2).

(** [Scheduler.__init__], on the database file whose table is [db]. *)
Definition Scheduler_init : M unit :=
  modify (set_tasks (λ _, ∅));;
  modify (set_running false);;
  modify (set_handler None);;
  _init_db;;
  _load_tasks.

(** The tuple [_save_task] binds to the columns. *)
Definition row_of (t : ScheduledTask) : Row :=
  mkRow (name t) (ScheduleType_value (schedule_type t)) (schedule_value t)
        (json_dumps (payload t)) (session_id t) (Z.b2z (enabled t))
        (isoformat (next_run t)) (isoformat <$> last_run t) (run_count t).

(** [Scheduler._save_task]: [INSERT OR REPLACE] on the primary key. *)
Definition _save_task (task : loc) : M unit :=
  t ← read task;
  modify (set_db (insert (task_id t) (row_of t))).

Definition set_task_handler (handler : Handler) : M unit :=
  modify (set_handler (Some handler)).

Definition add_task (name : string) (ty : ScheduleType) (value : string)
    (p : payload_t) (session : option string) : M string :=
  id ← uuid4;
  task ← ScheduledTask_init id name ty value p session true;
  modify (set_tasks (insert id task));;
  _save_task task;;
  mret id.

Definition remove_task (id : string) : M bool :=
  registry ← gets tasks;
  match registry !! id with
  | None => mret false
  | Some task =>
      assign task (with_enabled false);;
      assign task (with_status CANCELLED);;
      modify (set_db (delete id));;
      modify (set_tasks (delete id));;
      mret true
  end.

Definition get_task (id : string) : M (option loc) :=
  gets (λ s : state, tasks s !! id).

Definition get_all_tasks : M (list loc) :=
  gets (λ s : state, (map_to_list (tasks s)).*2).

Definition get_tasks_for_session (session : string) : M (list loc) :=
  gets (λ s : state,
          List.filter
            (λ l, from_option (λ t, bool_decide (session_id t = Some session)) false
                              (objects s !! l))
            (map_to_list (tasks s)).*2).

(** [await self._task_handler(task)] *)
Definition await_handler (handler : Handler) (task : loc) : M unit :=
  t ← read task;
  n ← gets calls;
  modify (set_calls (S n));;
  match handler n t with
  | Ok _ => mret tt
  | Raise e => raise e
  end.

(** [Scheduler._execute_task] *)
Definition _execute_task (task : loc) : M unit :=
  assign task (with_status RUNNING);;
  try_finally
    (try_except_Exception
       (h ← gets _task_handler;
        match h with
        | Some handler => await_handler handler task
        | None => mret tt
        end;;
        assign task (with_status COMPLETED);;
        now ← datetime_now;
        assign task (with_last_run (Some now));;
        assign task (λ t, with_run_count (run_count t + 1) t))
       (λ e, assign task (with_status FAILED)))
    (update_next_run task;;
     _save_task task).

(** The condition of the comprehension of [_check_and_run_tasks], and the tasks
    it selects, in the order in which the map lists them (the design note
    leaves the order open). *)
Definition is_due (now : datetime) (t : ScheduledTask) : bool :=
  enabled t && (next_run t <=? now).

Definition tasks_to_run (now : datetime) (s : state) : list loc :=
  List.filter (λ l, from_option (is_due now) false (objects s !! l))
              (map_to_list (tasks s)).*2.

(** [Scheduler._check_and_run_tasks] *)
Definition _check_and_run_tasks : M unit :=
  now ← datetime_now;
  due ← gets (tasks_to_run now);
  for_each due (λ task, create_task (_execute_task task)).

(** [await asyncio.sleep(10)] *)
Definition sleep (seconds : Z) : M unit := mret tt.

(** The [while self._running] loop of [Scheduler.start], cut after [cycles]
    iterations. *)
Fixpoint start_loop (cycles : nat) : M unit :=
  match cycles with
  | O => mret tt
  | S k =>
      r ← gets _running;
      if r : bool then _check_and_run_tasks;; sleep 10;; start_loop k
      else mret tt
  end.

Definition start (cycles : nat) : M unit :=
  r ← gets _running;
  if r : bool then mret tt
  else modify (set_running true);; start_loop cycles.

Definition stop : M unit := modify (set_running false).

(** [Scheduler.parse_time] *)
Definition parse_time (time_str : string) : M datetime :=
  try_except_ValueError
    (or_ValueError "Invalid isoformat string" (fromisoformat time_str))
    (try_except_ValueError
       (now ← datetime_now;
        let today := date now in
        time_part ← or_ValueError "does not match format '%H:%M'"
                      (strptime_HM time_str);
        mret (combine today time_part))
       (raise (ValueError (String.append "Invalid time format: " time_str)))).

(** [description or "Reminder"] *)
Definition or_Reminder (description : option string) : string :=
  if truthy description then default EmptyString description else "Reminder".

(** [Scheduler.add_reminder] *)
Definition add_reminder (session message remind_at : string)
    (description : option string) : M string :=
  parsed ← parse_time remind_at;
  now ← datetime_now;
  let remind_time :=
    if parsed <=? now then parsed + timedelta.days 1 else parsed in
  let p := [("type", JStr "reminder"); ("message", JStr message)] in
  add_task (or_Reminder description) ONCE (isoformat remind_time) p (Some session).

(** [Scheduler.add_recurring_task] *)
Definition add_recurring_task (session name : string) (interval_minutes : Z)
    (p : payload_t) : M string :=
  add_task name INTERVAL (str_of_int interval_minutes) p (Some session).

(** *** The public interface as data, and reachable states *)

Inductive call :=
| Call_add_task (name : string) (ty : ScheduleType) (value : string)
                (p : payload_t) (session : option string)
| Call_add_reminder (session message remind_at : string) (description : option string)
| Call_add_recurring_task (session name : string) (interval_minutes : Z) (p : payload_t)
| Call_remove_task (id : string)
| Call_set_task_handler (handler : Handler)
| Call_start (cycles : nat)
| Call_stop
| Call_wake_up.              (* one more iteration of the loop of [start] *)

(** The state a computation leaves behind, whether it returns or raises. *)
Definition run {A} (m : M A) (s : state) : state := (m s).2.

Definition perform (c : call) : state → state :=
  match c with
  | Call_add_task name ty value p session => run (add_task name ty value p session)
  | Call_add_reminder session message remind_at description =>
      run (add_reminder session message remind_at description)
  | Call_add_recurring_task session name interval_minutes p =>
      run (add_recurring_task session name interval_minutes p)
  | Call_remove_task id => run (remove_task id)
  | Call_set_task_handler handler => run (set_task_handler handler)
  | Call_start cycles => run (start cycles)
  | Call_stop => run stop
  | Call_wake_up => run _check_and_run_tasks
  end.

(** A process that has not built its scheduler yet, on an empty database. *)
Definition blank (ck : nat → datetime) (uu : nat → string) : state :=
  mkState ∅ false None [] ∅ ck 0 uu 0 0.

Inductive reachable : state → Prop :=
| reachable_init ck uu : reachable (run Scheduler_init (blank ck uu))
| reachable_call s c : reachable s → reachable (perform c s).

(** What happens to a scheduler: its interface is called, or the process ends
    and a scheduler is built again on the same database. *)
Inductive event :=
| Called (c : call)
| Restarted.

Definition occur (e : event) : state → state :=
  match e with
  | Called c => perform c
  | Restarted => run Scheduler_init
  end.

(** *** Closed forms of the state changes *)

(** The instant [_calculate_next_run] returns when the clock reads [now]. *)
Definition next_run_at (now : datetime) (ty : ScheduleType) (value : string) : datetime :=
  match ty with
  | ONCE => default (now + timedelta.hours 1) (fromisoformat value)
  | INTERVAL =>
      from_option (λ minutes, now + timedelta.minutes minutes)
                  (now + timedelta.hours 1) (int_of_str value)
  | CRON => now + timedelta.hours 1
  end.

(** What the handler answers for the task [t] (already marked [RUNNING]) in
    state [s]; no handler counts as a normal return. *)
Definition handler_outcome (s : state) (t : ScheduledTask) : result unit :=
  match _task_handler s with
  | Some handler => handler (calls s) t
  | None => Ok tt
  end.

(** The task after the [try]/[except] block of [_execute_task], and the clock
    readings used up to there. *)
Definition recorded (s : state) (t : ScheduledTask) : ScheduledTask :=
  match handler_outcome s t with
  | Ok _ =>
      with_run_count (run_count t + 1)
        (with_last_run (Some (clock s (ticks s))) (with_status COMPLETED t))
  | Raise _ => with_status FAILED t
  end.

Definition recorded_ticks (s : state) (t : ScheduledTask) : nat :=
  match handler_outcome s t with
  | Ok _ => S (ticks s)
  | Raise _ => ticks s
  end.

Definition after_attempt (task : loc) (t : ScheduledTask) (s : state) : state :=
  mkState (tasks s) (_running s) (_task_handler s)
          (<[task := recorded s t]> (objects s)) (db s) (clock s)
          (recorded_ticks s t) (uuids s) (drawn s)
          (match _task_handler s with Some _ => S (calls s) | None => calls s end).

(** The task after [update_next_run] when the clock reads [now]. *)
Definition rescheduled (now : datetime) (t : ScheduledTask) : ScheduledTask :=
  match schedule_type t with
  | ONCE => with_enabled false t
  | _ => with_next_run (next_run_at now (schedule_type t) (schedule_value t)) t
  end.

Definition rescheduled_ticks (ty : ScheduleType) (n : nat) : nat :=
  match ty with ONCE => n | _ => S n end.

(** The task a whole dispatch leaves behind, and the state after it. *)
Definition dispatched (s : state) (t : ScheduledTask) : ScheduledTask :=
  let running := with_status RUNNING t in
  rescheduled (clock s (recorded_ticks s running)) (recorded s running).

Definition after_dispatch (task : loc) (t : ScheduledTask) (s : state) : state :=
  mkState (tasks s) (_running s) (_task_handler s)
          (<[task := dispatched s t]> (objects s))
          (<[task_id t := row_of (dispatched s t)]> (db s))
          (clock s)
          (rescheduled_ticks (schedule_type t)
             (recorded_ticks s (with_status RUNNING t)))
          (uuids s) (drawn s)
          (match _task_handler s with Some _ => S (calls s) | None => calls s end).

(** The object [add_task] builds and the state after it. *)
Definition created (s : state) (name : string) (ty : ScheduleType) (value : string)
    (p : payload_t) (session : option string) : ScheduledTask :=
  mkTask (uuids s (drawn s)) name ty value p session true PENDING
         (next_run_at (clock s (ticks s)) ty value) None 0.

Definition after_add_task (t : ScheduledTask) (s : state) : state :=
  mkState (<[task_id t := length (objects s)]> (tasks s)) (_running s)
          (_task_handler s) (objects s ++ [t])
          (<[task_id t := row_of t]> (db s))
          (clock s) (S (ticks s)) (uuids s) (S (drawn s)) (calls s).

(** The state after the coroutines [_check_and_run_tasks] creates for the
    tasks [due], and after so many wake-ups. *)
Definition dispatch_all (due : list loc) (s : state) : state :=
  foldl (λ s task, run (_execute_task task) s) s due.

Definition wake_ups (cycles : nat) (s : state) : state :=
  Nat.iter cycles (run _check_and_run_tasks) s.


(** What [parse_time] answers when its clock reading is [now], and the state
    after [remove_task] has found [task] under [id]. *)
Definition parsed_time (now : datetime) (time_str : string) : option datetime :=
  match fromisoformat time_str with
  | Some d => Some d
  | None => combine (date now) <$> strptime_HM time_str
  end.

Definition after_remove_task (id : string) (task : loc) (s : state) : state :=
  mkState (delete id (tasks s)) (_running s) (_task_handler s)
          (alter (with_status CANCELLED) task
             (alter (with_enabled false) task (objects s)))
          (delete id (db s))
          (clock s) (ticks s) (uuids s) (drawn s) (calls s).

(** The state after [load_row] has turned a row into the task [t]. *)
Definition after_load_row (t : ScheduledTask) (s : state) : state :=
  mkState (<[task_id t := length (objects s)]> (tasks s)) (_running s)
          (_task_handler s) (objects s ++ [t]) (db s)
          (clock s) (S (ticks s)) (uuids s) (drawn s) (calls s).

(** The elementary state changes the public interface is made of. *)
Inductive transition : state → state → Prop :=
| transition_ticks s n : transition s (set_ticks n s)
| transition_handler s h : transition s (set_handler h s)
| transition_running s b : transition s (set_running b s)
| transition_add s t :
    task_id t = uuids s (drawn s) → transition s (after_add_task t s)
| transition_remove s id task :
    tasks s !! id = Some task → transition s (after_remove_task id task s)
| transition_dispatch s id task t :
    tasks s !! id = Some task → objects s !! task = Some t →
    transition s (after_dispatch task t s).

(** *** Invariants *)

(** The registry mirrors rows of the store: every registered id leads to an
    object with that id whose saved columns are the row of that id. *)
Definition mirrors (s : state) : Prop :=
  ∀ (id : string) (task : loc), tasks s !! id = Some task →
    ∃ t, objects s !! task = Some t ∧ task_id t = id
         ∧ db s !! id = Some (row_of t).


Definition retired (task : loc) (s : state) : Prop :=
  ∃ t, objects s !! task = Some t ∧ enabled t = false.

(** A handler that raises at every invocation. *)
Definition always_raises (handler : Handler) : Prop :=
  ∀ n t, ∃ e, handler n t = Raise e.

(** A row [_load_tasks] can turn into a task, and that task. *)
Definition decoded (id : string) (row : Row) : option ScheduledTask :=
  ty ← ScheduleType_of_value (col_schedule_type row);
  p ← json_loads (col_payload row);
  next ← fromisoformat (col_next_run row);
  last ← (if truthy (col_last_run row)
          then Some <$> fromisoformat (default EmptyString (col_last_run row))
          else Some None);
  Some (mkTask id (col_name row) ty (col_schedule_value row) p (col_session_id row)
               (negb (col_enabled row =? 0)) PENDING next last (col_run_count row)).


End Scheduler.

(** ** An executable instance of the library functions

    ASCII texts only.  [fromisoformat] reads what [isoformat] writes for a
    naive datetime, with any separator and with the seconds and the fraction
    optional (the Python 3.7 grammar without a UTC offset); [int] accepts
    surrounding blanks and a sign; the JSON printer writes Python's default
    separators and escapes the quote, the backslash and the newline, carriage
    return and tab characters. *)
Module Ref.

Definition chars (text : string) : list ascii := list_ascii_of_string text.
Definition text (cs : list ascii) : string := string_of_list_ascii cs.

Definition code (c : ascii) : Z := Z.of_N (N_of_ascii c).
Definition chr (n : Z) : ascii := ascii_of_N (Z.to_N n).

Definition digit (c : ascii) : option Z :=
  if (48 <=? code c) && (code c <=? 57) then Some (code c - 48) else None.

Fixpoint number_from (acc : Z) (cs : list ascii) : option Z :=
  match cs with
  | [] => Some acc
  | c :: cs' => d ← digit c; number_from (acc * 10 + d) cs'
  end.

(** A non-empty run of decimal digits. *)
Definition number (cs : list ascii) : option Z :=
  match cs with [] => None | _ => number_from 0 cs end.

(** [n] on [width] digits, zero-padded. *)
Fixpoint zfill (width : nat) (n : Z) : list ascii :=
  match width with
  | O => []
  | S w => zfill w (n / 10) ++ [chr (48 + n mod 10)]
  end.

Fixpoint decimal (fuel : nat) (n : Z) : list ascii :=
  match fuel with
  | O => []
  | S k => (if n <? 10 then [] else decimal k (n / 10)) ++ [chr (48 + n mod 10)]
  end.

(** [str(n)] *)
Definition str_of_int (n : Z) : string :=
  let digits m := decimal (S (Z.to_nat (Z.log2 m))) m in
  text (if n <? 0 then "-"%char :: digits (- n) else digits n).

Definition is_space (c : ascii) : bool :=
  (code c =? 32) || ((9 <=? code c) && (code c <=? 13)).

Fixpoint lstrip (cs : list ascii) : list ascii :=
  match cs with
  | c :: cs' => if is_space c then lstrip cs' else cs
  | [] => []
  end.

Definition strip (cs : list ascii) : list ascii :=
  rev (lstrip (rev (lstrip cs))).

(** [int(text)] *)
Definition int_of_str (t : string) : option Z :=
  match strip (chars t) with
  | "-"%char :: ds => n ← number ds; Some (- n)
  | "+"%char :: ds => number ds
  | ds => number ds
  end.

(** The proleptic Gregorian calendar; day 0 is 0001-01-01. *)
Definition is_leap (y : Z) : bool :=
  (y mod 4 =? 0) && (negb (y mod 100 =? 0) || (y mod 400 =? 0)).

Definition days_in_month (y m : Z) : Z :=
  if m =? 2 then (if is_leap y then 29 else 28)
  else if (m =? 4) || (m =? 6) || (m =? 9) || (m =? 11) then 30
  else 31.

Definition days_from_civil (y m d : Z) : Z :=
  let y' := if m <=? 2 then y - 1 else y in
  let era := y' / 400 in
  let yoe := y' - era * 400 in
  let doy := (153 * (if 2 <? m then m - 3 else m + 9) + 2) / 5 + d - 1 in
  let doe := yoe * 365 + yoe / 4 - yoe / 100 + doy in
  era * 146097 + doe - 306.

Definition civil_from_days (z : Z) : Z * Z * Z :=
  let z' := z + 306 in
  let era := z' / 146097 in
  let doe := z' - era * 146097 in
  let yoe := (doe - doe / 1460 + doe / 36524 - doe / 146096) / 365 in
  let doy := doe - (365 * yoe + yoe / 4 - yoe / 100) in
  let mp := (5 * doy + 2) / 153 in
  let d := doy - (153 * mp + 2) / 5 + 1 in
  let m := if mp <? 10 then mp + 3 else mp - 9 in
  (yoe + era * 400 + (if m <=? 2 then 1 else 0), m, d).

(** [datetime(y, m, d, hh, mm, ss, us)], [None] for a field out of range. *)
Definition make_datetime (y m d hh mm ss us : Z) : option datetime :=
  if (1 <=? y) && (y <=? 9999) && (1 <=? m) && (m <=? 12) && (1 <=? d)
     && (d <=? days_in_month y m) && (hh <? 24) && (mm <? 60) && (ss <? 60)
  then Some (timedelta.days (days_from_civil y m d) + timedelta.hours hh
             + timedelta.minutes mm + timedelta.seconds ss + us)
  else None.

(** [dt.isoformat()] *)
Definition isoformat (dt : datetime) : string :=
  let '(y, m, d) := civil_from_days (dt / timedelta.days 1) in
  let rest := dt mod timedelta.days 1 in
  let us := rest mod 1000000 in
  let secs := rest / 1000000 in
  text (zfill 4 y ++ "-"%char :: zfill 2 m ++ "-"%char :: zfill 2 d
        ++ "T"%char :: zfill 2 (secs / 3600)
        ++ ":"%char :: zfill 2 (secs / 60 mod 60)
        ++ ":"%char :: zfill 2 (secs mod 60)
        ++ (if us =? 0 then [] else "."%char :: zfill 6 us)).

(** The time part: HH, HH:MM, HH:MM:SS, HH:MM:SS.fff or HH:MM:SS.ffffff, as
    (hour, minute, second, microsecond). *)
Definition parse_time_part (cs : list ascii) : option (Z * Z * Z * Z) :=
  match cs with
  | [h1; h2] =>
      hh ← number [h1; h2]; Some (hh, 0, 0, 0)
  | [h1; h2; ":"%char; m1; m2] =>
      hh ← number [h1; h2]; mm ← number [m1; m2]; Some (hh, mm, 0, 0)
  | h1 :: h2 :: ":"%char :: m1 :: m2 :: ":"%char :: s1 :: s2 :: frac =>
      hh ← number [h1; h2]; mm ← number [m1; m2]; ss ← number [s1; s2];
      match frac with
      | [] => Some (hh, mm, ss, 0)
      | ["."%char; f1; f2; f3] =>
          ms ← number [f1; f2; f3]; Some (hh, mm, ss, ms * 1000)
      | ["."%char; f1; f2; f3; f4; f5; f6] =>
          us ← number [f1; f2; f3; f4; f5; f6]; Some (hh, mm, ss, us)
      | _ => None
      end
  | _ => None
  end.

(** [datetime.fromisoformat(text)] *)
Definition fromisoformat (t : string) : option datetime :=
  match chars t with
  | y1 :: y2 :: y3 :: y4 :: "-"%char :: m1 :: m2 :: "-"%char :: d1 :: d2 :: rest =>
      y ← number [y1; y2; y3; y4]; m ← number [m1; m2]; d ← number [d1; d2];
      '(hh, mm, ss, us) ← match rest with
                          | [] => Some (0, 0, 0, 0)
                          | _ :: time => parse_time_part time
                          end;
      make_datetime y m d hh mm ss us
  | _ => None
  end.

(** [datetime.strptime(text, "%H:%M").time()]: one or two digits each. *)
Definition strptime_HM (t : string) : option (Z * Z) :=
  let field (cs : list ascii) (bound : Z) :=
    match cs with
    | [_] | [_; _] => n ← number cs; if n <? bound then Some n else None
    | _ => None
    end in
  match chars t with
  | [h1; ":"%char; m1] => hh ← field [h1] 24; mm ← field [m1] 60; Some (hh, mm)
  | [h1; ":"%char; m1; m2] => hh ← field [h1] 24; mm ← field [m1; m2] 60; Some (hh, mm)
  | [h1; h2; ":"%char; m1] => hh ← field [h1; h2] 24; mm ← field [m1] 60; Some (hh, mm)
  | [h1; h2; ":"%char; m1; m2] =>
      hh ← field [h1; h2] 24; mm ← field [m1; m2] 60; Some (hh, mm)
  | _ => None
  end.

(** [json.dumps] *)
Fixpoint escape (cs : list ascii) : list ascii :=
  match cs with
  | [] => []
  | c :: cs' =>
      (if code c =? 34 then [chr 92; chr 34]
       else if code c =? 92 then [chr 92; chr 92]
       else if code c =? 10 then [chr 92; "n"%char]
       else if code c =? 13 then [chr 92; "r"%char]
       else if code c =? 9 then [chr 92; "t"%char]
       else [c]) ++ escape cs'
  end.

Definition quote (t : string) : list ascii :=
  chr 34 :: escape (chars t) ++ [chr 34].

Fixpoint join (parts : list (list ascii)) : list ascii :=
  match parts with
  | [] => []
  | [part] => part
  | part :: parts' => part ++ chars ", " ++ join parts'
  end.

Fixpoint dump (v : json) : list ascii :=
  match v with
  | JNull => chars "null"
  | JBool true => chars "true"
  | JBool false => chars "false"
  | JInt n => chars (str_of_int n)
  | JStr t => quote t
  | JList items => "["%char :: join (List.map dump items) ++ ["]"%char]
  | JDict members =>
      "{"%char
        :: join (List.map (λ kv, let '(k, v) := kv in
                                 quote k ++ chars ": " ++ dump v) members)
        ++ ["}"%char]
  end.

Definition json_dumps (p : payload_t) : string := text (dump (JDict p)).

(** [json.loads]: a recursive-descent parser; [fuel] bounds the nesting and
    the lengths. *)
Fixpoint parse_string (fuel : nat) (acc cs : list ascii) : option (string * list ascii) :=
  match fuel, cs with
  | S k, c :: cs' =>
      if code c =? 34 then Some (text (rev acc), cs')
      else if code c =? 92 then
        match cs' with
        | e :: cs'' =>
            if code e =? 110 then parse_string k (chr 10 :: acc) cs''
            else if code e =? 114 then parse_string k (chr 13 :: acc) cs''
            else if code e =? 116 then parse_string k (chr 9 :: acc) cs''
            else if (code e =? 34) || (code e =? 92) || (code e =? 47)
                 then parse_string k (e :: acc) cs''
            else None
        | [] => None
        end
      else parse_string k (c :: acc) cs'
  | _, _ => None
  end.

Fixpoint span_digits (cs : list ascii) : list ascii * list ascii :=
  match cs with
  | c :: cs' =>
      match digit c with
      | Some _ => let '(ds, rest) := span_digits cs' in (c :: ds, rest)
      | None => ([], cs)
      end
  | [] => ([], [])
  end.

Fixpoint parse_value (fuel : nat) (cs : list ascii) : option (json * list ascii) :=
  match fuel with
  | O => None
  | S k =>
      match lstrip cs with
      | "n"%char :: "u"%char :: "l"%char :: "l"%char :: rest => Some (JNull, rest)
      | "t"%char :: "r"%char :: "u"%char :: "e"%char :: rest => Some (JBool true, rest)
      | "f"%char :: "a"%char :: "l"%char :: "s"%char :: "e"%char :: rest =>
          Some (JBool false, rest)
      | "["%char :: rest =>
          match lstrip rest with
          | "]"%char :: rest' => Some (JList [], rest')
          | _ =>
              (fix items (n : nat) (acc : list json) (cs : list ascii) :=
                 match n with
                 | O => None
                 | S n' =>
                     '(v, cs1) ← parse_value k cs;
                     match lstrip cs1 with
                     | ","%char :: cs2 => items n' (v :: acc) cs2
                     | "]"%char :: cs2 => Some (JList (rev (v :: acc)), cs2)
                     | _ => None
                     end
                 end) k [] rest
          end
      | "{"%char :: rest =>
          match lstrip rest with
          | "}"%char :: rest' => Some (JDict [], rest')
          | _ =>
              (fix members (n : nat) (acc : list (string * json)) (cs : list ascii) :=
                 match n, lstrip cs with
                 | S n', q :: cs0 =>
                     if code q =? 34 then
                       '(key, cs1) ← parse_string k [] cs0;
                       match lstrip cs1 with
                       | ":"%char :: cs2 =>
                           '(v, cs3) ← parse_value k cs2;
                           match lstrip cs3 with
                           | ","%char :: cs4 => members n' ((key, v) :: acc) cs4
                           | "}"%char :: cs4 =>
                               Some (JDict (rev ((key, v) :: acc)), cs4)
                           | _ => None
                           end
                       | _ => None
                       end
                     else None
                 | _, _ => None
                 end) k [] rest
          end
      | "-"%char :: rest =>
          let '(ds, rest') := span_digits rest in
          n ← number ds; Some (JInt (- n), rest')
      | c :: rest =>
          if code c =? 34 then
            '(t, rest') ← parse_string k [] rest; Some (JStr t, rest')
          else
            let '(ds, rest') := span_digits (c :: rest) in
            n ← number ds; Some (JInt n, rest')
      | [] => None
      end
  end.

Definition json_loads (t : string) : option payload_t :=
  let cs := chars t in
  match parse_value (S (length cs)) cs with
  | Some (JDict members, rest) =>
      match lstrip rest with [] => Some members | _ => None end
  | _ => None
  end.

(** The checks behind the calendar lemmas.  In a cycle of 400 years that
    starts on a first of March, [year_start yoe] is the first day of year [yoe]
    and [year_end yoe] the first day after it; [years_passed doe] is the
    dividend from which [civil_from_days] takes the year of day [doe]. *)
Definition year_start (yoe : Z) : Z := 365 * yoe + yoe / 4 - yoe / 100.

Definition year_end (yoe : Z) : Z :=
  if yoe =? 399 then 146097 else year_start (yoe + 1).

Definition years_passed (doe : Z) : Z :=
  doe - doe / 1460 + doe / 36524 - doe / 146096.

Definition year_check (yoe : Z) : bool :=
  (years_passed (year_start yoe) / 365 =? yoe)
  && (years_passed (year_end yoe - 1) / 365 =? yoe)
  && (year_start yoe <? year_end yoe)
  && (year_end yoe - year_start yoe <=? 366)
  && ((year_end yoe - year_start yoe <=? 365) || is_leap (yoe + 1)).

(** Month and day of the day [doy] of a year that starts on a first of March. *)
Definition month_day (doy : Z) : Z * Z :=
  let mp := (5 * doy + 2) / 153 in
  (if mp <? 10 then mp + 3 else mp - 9, doy - (153 * mp + 2) / 5 + 1).

Definition day_check (doy : Z) : bool :=
  let '(m, d) := month_day doy in
  (1 <=? m) && (m <=? 12) && (1 <=? d)
  && (d <=? (if m =? 2 then (if doy =? 365 then 29 else 28) else days_in_month 1 m)).

(** [check] holds of 0, ..., n-1. *)
Definition checks (check : Z → bool) (n : N) : Z * bool :=
  N.iter n (λ '(i, ok), (i + 1, ok && check i)) (0, true).

Definition lib : PyLib :=
  Build_PyLib fromisoformat isoformat strptime_HM int_of_str str_of_int
              json_dumps json_loads.

End Ref.

(** * Concrete runs *)

Module Scenario.
#[local] Existing Instance Ref.lib.

(** 2026-02-16T11:00:00, a clock that advances 61 seconds from one reading
    to the next, and a clock that stands still. *)
Definition T0 : datetime := 63906836400000000.

Definition ticking (n : nat) : datetime := T0 + timedelta.seconds (61 * Z.of_nat n).

Definition frozen (n : nat) : datetime := T0.

Definition ids (n : nat) : string :=
  String.append "task-" (Ref.str_of_int (Z.of_nat n)).

Definition failing : Handler := λ _ _, Raise (Exception "handler failed").

Definition boot (ck : nat → datetime) : state := run Scheduler_init (blank ck ids).






(** A one-shot task due at 11:00:30, dispatched by the wake-up of 11:01:01. *)
Definition report : ScheduledTask :=
  mkTask "task-0" "report" ONCE "2026-02-16T11:00:30" [] None true PENDING
         (T0 + timedelta.seconds 30) None 0.

Definition once_added : state :=
  perform (Call_add_task "report" ONCE "2026-02-16T11:00:30" [] None) (boot ticking).

Definition once_retired : state := perform Call_wake_up once_added.







End Scenario.

(** * The ranges of Python's datetime and timedelta

    The scheduler above adds durations on the unbounded line.  Python keeps a
    [timedelta] within 999999999 days and a [datetime] within the years
    1..9999, and raises [OverflowError] beyond; [except ValueError] does not
    catch it.  Module [Ranged] is the schedule calculator, and the operations
    that build a task with it, with these checks. *)

Definition OverflowError : exn := Exception "OverflowError".

Module Ranged.
Section Defs.
Context `{PyLib}.

(** One past [datetime.max]: 10000-01-01T00:00:00. *)
Definition datetime_end : datetime := 3652059 * timedelta.days 1.

(** [timedelta(...)] for a duration of so many microseconds: the number of
    whole days (rounded down) is at most 999999999 in magnitude. *)
Definition timedelta_new (microseconds : Z) : M Z :=
  let days := microseconds / timedelta.days 1 in
  if (-999999999 <=? days) && (days <=? 999999999) then mret microseconds
  else raise OverflowError.

(** [d + delta] on a datetime: the sum lies in the years 1..9999. *)
Definition datetime_add (d : datetime) (delta : Z) : M datetime :=
  if (0 <=? d + delta) && (d + delta <? datetime_end) then mret (d + delta)
  else raise OverflowError.

(** [ScheduledTask._calculate_next_run] *)
Definition _calculate_next_run (ty : ScheduleType) (value : string) : M datetime :=
  now ← datetime_now;
  match ty with
  | ONCE =>
      try_except_ValueError
        (or_ValueError "Invalid isoformat string" (fromisoformat value))
        (delta ← timedelta_new (timedelta.hours 1); datetime_add now delta)
  | INTERVAL =>
      try_except_ValueError
        (minutes ← or_ValueError "invalid literal for int()" (int_of_str value);
         delta ← timedelta_new (timedelta.minutes minutes);
         datetime_add now delta)
        (delta ← timedelta_new (timedelta.hours 1); datetime_add now delta)
  | CRON => delta ← timedelta_new (timedelta.hours 1); datetime_add now delta
  end.

(** [ScheduledTask.__init__] *)
Definition ScheduledTask_init (id name : string) (ty : ScheduleType)
    (value : string) (p : payload_t) (session : option string)
    (en : bool) : M loc :=
  next ← _calculate_next_run ty value;
  new (mkTask id name ty value p session en PENDING next None 0).

(** [Scheduler.add_task] *)
Definition add_task (name : string) (ty : ScheduleType) (value : string)
    (p : payload_t) (session : option string) : M string :=
  id ← uuid4;
  task ← ScheduledTask_init id name ty value p session true;
  modify (set_tasks (insert id task));;
  _save_task task;;
  mret id.

(** [Scheduler.add_recurring_task] *)
Definition add_recurring_task (session name : string) (interval_minutes : Z)
    (p : payload_t) : M string :=
  add_task name INTERVAL (str_of_int interval_minutes) p (Some session).

(** What [now + timedelta(...)] answers for a duration of [delta]
    microseconds. *)
Definition representable (now delta : Z) : bool :=
  (-999999999 <=? delta / timedelta.days 1)
  && (delta / timedelta.days 1 <=? 999999999)
  && (0 <=? now + delta) && (now + delta <? datetime_end).

Definition plus (now delta : Z) : result datetime :=
  if representable now delta then Ok (now + delta) else Raise OverflowError.

(** What the calculator answers when the clock reads [now]. *)
Definition next_run_at (now : datetime) (ty : ScheduleType) (value : string) :
    result datetime :=
  match ty with
  | ONCE =>
      match fromisoformat value with
      | Some parsed => Ok parsed
      | None => plus now (timedelta.hours 1)
      end
  | INTERVAL =>
      match int_of_str value with
      | Some minutes => plus now (timedelta.minutes minutes)
      | None => plus now (timedelta.hours 1)
      end
  | CRON => plus now (timedelta.hours 1)
  end.

End Defs.
End Ranged.

(** * Dispatches in flight

    [asyncio.create_task] schedules the coroutine [_execute_task(task)]: it
    starts when the event loop next gets control and runs up to
    [await self._task_handler(task)], where a handler that waits (for a
    message to be delivered, say) suspends it.  Until the handler returns or
    raises, the loop of [start] polls on and the public operations can be
    called.  [_execute_task] above is the run of a dispatch that is not
    suspended; here a dispatch is cut at the await. *)

Section Loop.
Context `{PyLib}.

(** What a computation returns or raises, as a value. *)
Definition outcome_of {A} (m : M A) : M (result A) := λ s,
  (Ok (m s).1, (m s).2).

(** [_execute_task] from its first line to the await: the task is marked
    running and the handler is invoked; the answer is what the handler will
    return or raise. *)
Definition begin_dispatch (task : loc) : M (result unit) :=
  assign task (with_status RUNNING);;
  h ← gets _task_handler;
  match h with
  | Some handler => outcome_of (await_handler handler task)
  | None => mret (Ok tt)
  end.

(** [_execute_task] from the return of the handler to its last line. *)
Definition finish_dispatch (task : loc) (outcome : result unit) : M unit :=
  try_finally
    (try_except_Exception
       (match outcome with Ok _ => mret tt | Raise e => raise e end;;
        assign task (with_status COMPLETED);;
        now ← datetime_now;
        assign task (with_last_run (Some now));;
        assign task (λ t, with_run_count (run_count t + 1) t))
       (λ e, assign task (with_status FAILED)))
    (update_next_run task;;
     _save_task task).

(** [_execute_task] when the dispatch is cancelled at the await:
    [CancelledError] is no [Exception], so the [except] clause is passed over;
    the [finally] block runs, and the error stays in the asyncio task. *)
Definition cancel_dispatch (task : loc) : M unit :=
  update_next_run task;;
  _save_task task.

(** The first two statements of [_check_and_run_tasks]: the clock reading and
    the comprehension. *)
Definition select_due : M (list loc) :=
  now ← datetime_now;
  gets (tasks_to_run now).

(** An asyncio task created for a dispatch: not started yet, or suspended in
    the await of the handler. *)
Inductive job :=
| Created (task : loc)
| Awaiting (task : loc) (outcome : result unit).

(** The scheduler and the dispatches in flight. *)
Record world := mkWorld {
  scheduler : state;
  jobs : list job
}.

(** What the event loop runs next.  These are more interleavings than
    asyncio produces (there a dispatch without a handler is not suspended, and
    jobs start in the order of their creation); what holds in all of them
    holds in those of asyncio. *)
Inductive action :=
| Poll                   (* one iteration of the loop of [start] *)
| Start_job (i : nat)    (* the job at position [i] starts and reaches the await *)
| Finish_job (i : nat)   (* its handler returns or raises; the dispatch ends *)
| Cancel_job (i : nat)   (* the job is cancelled, before its start or at the await *)
| Public (c : call)      (* a public operation is called *)
| Reboot.                (* the process ends; a scheduler is built again *)

Definition act (a : action) (w : world) : world :=
  match a with
  | Poll =>
      if _running (scheduler w) then
        match select_due (scheduler w) with
        | (Ok due, s') => mkWorld s' (jobs w ++ (Created <$> due))
        | (Raise _, s') => mkWorld s' (jobs w)
        end
      else w
  | Start_job i =>
      match jobs w !! i with
      | Some (Created task) =>
          match begin_dispatch task (scheduler w) with
          | (Ok outcome, s') => mkWorld s' (<[i := Awaiting task outcome]> (jobs w))
          | (Raise _, s') => mkWorld s' (delete i (jobs w))
          end
      | _ => w
      end
  | Finish_job i =>
      match jobs w !! i with
      | Some (Awaiting task outcome) =>
          mkWorld (run (finish_dispatch task outcome) (scheduler w))
                  (delete i (jobs w))
      | _ => w
      end
  | Cancel_job i =>
      match jobs w !! i with
      | Some (Awaiting task _) =>
          mkWorld (run (cancel_dispatch task) (scheduler w)) (delete i (jobs w))
      | Some (Created _) => mkWorld (scheduler w) (delete i (jobs w))
      | None => w
      end
  | Public c => mkWorld (perform c (scheduler w)) (jobs w)
  | Reboot => mkWorld (run Scheduler_init (scheduler w)) []
  end.

Definition acts (l : list action) (w : world) : world :=
  foldl (λ w a, act a w) w l.

(** The task the end of a dispatch leaves behind when the handler's answer
    is [outcome] and the clock reads [now] next. *)
Definition settled (outcome : result unit) (now : datetime) (t : ScheduledTask) :
    ScheduledTask :=
  match outcome with
  | Ok _ =>
      with_run_count (run_count t + 1)
        (with_last_run (Some now) (with_status COMPLETED t))
  | Raise _ => with_status FAILED t
  end.

Definition settled_ticks (outcome : result unit) (n : nat) : nat :=
  match outcome with Ok _ => S n | Raise _ => n end.

Definition finished (outcome : result unit) (s : state) (t : ScheduledTask) :
    ScheduledTask :=
  rescheduled (clock s (settled_ticks outcome (ticks s)))
    (settled outcome (clock s (ticks s)) t).

Definition after_cancel (task : loc) (t : ScheduledTask) (s : state) : state :=
  mkState (tasks s) (_running s) (_task_handler s)
          (<[task := rescheduled (clock s (ticks s)) t]> (objects s))
          (<[task_id t := row_of (rescheduled (clock s (ticks s)) t)]> (db s))
          (clock s)
          (rescheduled_ticks (schedule_type t) (ticks s))
          (uuids s) (drawn s) (calls s).

Definition after_finish (task : loc) (t : ScheduledTask) (outcome : result unit)
    (s : state) : state :=
  mkState (tasks s) (_running s) (_task_handler s)
          (<[task := finished outcome s t]> (objects s))
          (<[task_id t := row_of (finished outcome s t)]> (db s))
          (clock s)
          (rescheduled_ticks (schedule_type t) (settled_ticks outcome (ticks s)))
          (uuids s) (drawn s) (calls s).

End Loop.

(** * The callers of the scheduler *)

Section Callers.
Context `{PyLib}.

(** [try: body  except ValueError as e: handler], where the handler sees
    [str(e)]. *)
Definition try_except_ValueError_as {A} (body : M A) (handler : string → M A) : M A :=
  λ s,
  match body s with
  | (Raise (ValueError msg), s') => handler msg s'
  | r => r
  end.

(** [' '.join(words)] *)
Fixpoint join_words (words : list string) : string :=
  match words with
  | [] => EmptyString
  | [word] => word
  | word :: rest => String.append word (String " " (join_words rest))
  end.

Definition remind_usage : string :=
  String.append "Usage: /remind HH:MM message"
    (String (ascii_of_nat 10) "Example: /remind 09:00 Check emails").

(** agent.py, [QuickBot._handle_command], the branch of [cmd == '/remind'] on
    the words [args] that follow the command; [scheduler] tells whether
    [self.scheduler] is set. *)
Definition _handle_command_remind (scheduler : bool) (session_id : string)
    (args : list string) : M string :=
  if (2 <=? length args)%nat && scheduler then
    let time_str := default EmptyString (head args) in
    let message := join_words (tail args) in
    try_except_ValueError_as
      (add_reminder session_id message time_str None;;
       mret (String.append "✅ Reminder set for "
               (String.append time_str (String.append ": " message))))
      (λ e, mret (String.append "⚠️ Invalid time format: " e))
  else mret remind_usage.

(** scripts/health_check.py, [HealthChecker.check_scheduler_db]: the answer is
    the dictionary with status "healthy" and the two counts, or the one with
    status "error" and a message.  [found] tells whether the database file
    exists, [table] is its table [tasks]; a file without that table (the
    [except Exception] branch) is not modelled. *)
Inductive health :=
| Healthy (task_count enabled_count : nat)
| Unhealthy (message : string).

Definition check_scheduler_db (found : bool) (table : gmap string Row) : health :=
  if found then
    Healthy (size table) (size (filter (λ kv, col_enabled kv.2 = 1) table))
  else Unhealthy "Database not found".

End Callers.

(** * Further invariants *)

(** The counters of every task object agree: it has run a non-negative number
    of times, and it has a last run exactly when it has run. *)
Definition counters_agree (s : state) : Prop :=
  ∀ (task : loc) (t : ScheduledTask), objects s !! task = Some t →
    0 ≤ run_count t ∧ (last_run t = None ↔ run_count t = 0).

(** One dispatch, seen from outside: the task is marked completed and has run
    once more, or it is marked failed and its counters are as before. *)
Definition dispatched_once (t t' : ScheduledTask) : Prop :=
  (status t' = COMPLETED ∧ run_count t' = run_count t + 1
   ∧ ∃ now, last_run t' = Some now)
  ∨ (status t' = FAILED ∧ run_count t' = run_count t ∧ last_run t' = last_run t).

(** The life of a registered task, also while dispatches are in flight: it
    is not cancelled; while pending it has never run; once completed it has
    run; a recurring task is enabled. *)
Definition in_order (t : ScheduledTask) : Prop :=
  status t ≠ CANCELLED
  ∧ 0 ≤ run_count t
  ∧ (status t = PENDING → run_count t = 0 ∧ last_run t = None)
  ∧ (status t = COMPLETED → 1 ≤ run_count t)
  ∧ (schedule_type t ≠ ONCE → enabled t = true).

(** Every registered id leads to an object of that id. *)
Definition named (s : state) : Prop :=
  ∀ (id : string) (task : loc), tasks s !! id = Some task →
    ∃ t, objects s !! task = Some t ∧ task_id t = id.

Definition orderly (s : state) : Prop :=
  named s
  ∧ ∀ id task t, tasks s !! id = Some task → objects s !! task = Some t → in_order t.

(** Every registered id has a row in the store. *)
Definition stored (s : state) : Prop :=
  ∀ (id : string) (task : loc), tasks s !! id = Some task → is_Some (db s !! id).

(** The worlds the event loop reaches from a scheduler built on an empty
    database, the process living on. *)
Section Live.
Context `{PyLib}.

Inductive live : world → Prop :=
| live_init ck uu : live (mkWorld (run Scheduler_init (blank ck uu)) [])
| live_act w a : live w → a ≠ Reboot → live (act a w).

End Live.

(** ** Further concrete runs *)

Module Cases.
Import Scenario.
#[local] Existing Instance Ref.lib.

(** The one-shot task of [once_retired], dispatched without a handler by the
    wake-up of 11:01:01. *)
Definition report_done : ScheduledTask :=
  mkTask "task-0" "report" ONCE "2026-02-16T11:00:30" [] None false COMPLETED
         (T0 + timedelta.seconds 30) (Some (ticking 2)) 1.

(** A task with the cron expression of every five minutes, added at
    11:00:00; the calculator makes it due at 12:00:00. *)
Definition cron_added : state :=
  run (add_task "poll" CRON "*/5 * * * *" [] None) (boot ticking).

Definition every_five : ScheduledTask :=
  mkTask "task-0" "poll" CRON "*/5 * * * *" [] None true PENDING
         (T0 + timedelta.hours 1) None 0.

(** A handler that returns normally, after more than a poll period. *)
Definition slow : Handler := λ _ _, Ok tt.

(** A running scheduler with that handler and a one-shot task due at
    11:00:30.  The poll of 11:01:01 dispatches the task; the poll of 11:02:02
    finds the handler still awaited and dispatches the task again; then both
    handlers return. *)
Definition overlap_0 : world :=
  mkWorld
    (perform (Call_start 0)
       (perform (Call_add_task "report" ONCE "2026-02-16T11:00:30" [] None)
          (run (set_task_handler slow) (boot ticking))))
    [].

Definition overlap_polled : world := act Poll overlap_0.

Definition overlap_1 : world := act (Start_job 0) overlap_polled.

Definition overlap_2 : world := acts [Poll; Start_job 1] overlap_1.

Definition overlap_3 : world := acts [Finish_job 0; Finish_job 0] overlap_2.

(** The other order: the second poll has selected the task when the first
    handler returns, and the second dispatch starts after the first has
    ended. *)
Definition overlap_ended : world := acts [Poll; Finish_job 0] overlap_1.

Definition overlap_late : world := act (Start_job 0) overlap_ended.

(** The task is removed while its first handler is awaited; then the handler
    returns. *)
Definition overlap_removed : world :=
  acts [Public (Call_remove_task "task-0"); Finish_job 0] overlap_1.

(** A database with one enabled row whose schedule type is unknown. *)
Definition broken_row : Row :=
  mkRow "report" "weekly" "1" "{}" None 1 "2026-02-16T11:00:30" None 0.

Definition broken : state :=
  set_db (insert "task-9" broken_row) (blank ticking ids).
End Cases.

(** * Properties *)

Section Properties.
Context `{PyLib}.

(** Lookup of an object that was just assigned. *)
Ltac lookup_inserted :=
  cbn; apply list_lookup_insert_eq; rewrite ?length_insert; done.

(** ** Running monadic code *)

Lemma bind_Ok {A B} (m : M A) (f : A → M B) a s s' :
  m s = (Ok a, s') → (m ≫= f) s = f a s'.
Proof. intros Hm. unfold mbind, M_bind. by rewrite Hm. Qed.

Lemma bind_Raise {A B} (m : M A) (f : A → M B) e s s' :
  m s = (Raise e, s') → (m ≫= f) s = (Raise e, s').
Proof. intros Hm. unfold mbind, M_bind. by rewrite Hm. Qed.

Lemma alter_present {A} (f : A → A) (l : list A) i x :
  l !! i = Some x → alter f i l = <[i:=f x]> l.
Proof.
  intros Hx. apply list_eq. intros j. destruct (decide (i = j)) as [<-|Hne].
  - rewrite list_lookup_alter_eq, Hx, list_lookup_insert_eq; eauto using lookup_lt_Some.
  - rewrite list_lookup_alter_ne, list_lookup_insert_ne; done.
Qed.

Lemma insert_snoc {A} (l : list A) (x y : A) : <[length l := y]> (l ++ [x]) = l ++ [y].
Proof.
  replace (length l) with (length l + 0)%nat by lia. by rewrite insert_app_r.
Qed.

Lemma lookup_snoc {A} (l : list A) (x : A) : (l ++ [x]) !! length l = Some x.
Proof. by rewrite lookup_app_r, Nat.sub_diag. Qed.

Lemma alter_snoc {A} (f : A → A) (l : list A) (x : A) :
  alter f (length l) (l ++ [x]) = l ++ [f x].
Proof. by rewrite (alter_present f _ _ x (lookup_snoc l x)), insert_snoc. Qed.

Lemma assign_eq task f t s :
  objects s !! task = Some t →
  assign task f s = (Ok tt, set_objects (λ objs, <[task := f t]> objs) s).
Proof.
  intros Ht. unfold assign, modify, set_objects.
  by rewrite (alter_present _ _ _ _ Ht).
Qed.

Lemma read_eq task t s : objects s !! task = Some t → read task s = (Ok t, s).
Proof. intros Ht. unfold read. by rewrite Ht. Qed.

(** ** The schedule calculator *)

Lemma _calculate_next_run_eq ty value s :
  _calculate_next_run ty value s
  = (Ok (next_run_at (clock s (ticks s)) ty value), set_ticks (S (ticks s)) s).
Proof.
  unfold _calculate_next_run, next_run_at, mbind, M_bind, datetime_now,
    try_except_ValueError, or_ValueError.
  destruct ty; cbn; [destruct (fromisoformat value) | destruct (int_of_str value) |];
    reflexivity.
Qed.

(** ** One dispatch *)

Lemma attempt_eq task t s :
  objects s !! task = Some t →
  try_except_Exception
     (h ← gets _task_handler;
      match h with
      | Some handler => await_handler handler task
      | None => mret tt
      end;;
      assign task (with_status COMPLETED);;
      now ← datetime_now;
      assign task (with_last_run (Some now));;
      assign task (λ t, with_run_count (run_count t + 1) t))
     (λ e, assign task (with_status FAILED)) s
  = (Ok tt, after_attempt task t s).
Proof.
  intros Ht.
  destruct s as [reg run hd objs d ck ti uu dr ca]; cbn in Ht.
  unfold after_attempt, recorded, recorded_ticks, handler_outcome,
    try_except_Exception, await_handler, assign, read, modify, gets, mbind, M_bind,
    datetime_now, mret, M_ret, raise, set_objects, set_calls, set_ticks; cbn.
  destruct hd as [handler|]; cbn.
  - rewrite Ht; cbn.
    destruct (handler ca t) as [[]|e]; cbn.
    + rewrite !list_alter_alter_eq.
      by erewrite alter_present by done.
    + by erewrite alter_present by done.
  - rewrite !list_alter_alter_eq.
    by erewrite alter_present by done.
Qed.

Lemma update_next_run_eq task t s :
  objects s !! task = Some t →
  update_next_run task s
  = (Ok tt,
     set_ticks (rescheduled_ticks (schedule_type t) (ticks s))
       (set_objects (λ objs, <[task := rescheduled (clock s (ticks s)) t]> objs) s)).
Proof.
  intros Ht. unfold update_next_run.
  rewrite (bind_Ok _ _ _ _ _ (read_eq _ _ _ Ht)).
  unfold rescheduled, rescheduled_ticks.
  destruct (schedule_type t) eqn:Hty.
  - rewrite (assign_eq _ _ _ _ Ht). by destruct s.
  - rewrite (bind_Ok _ _ _ _ _ (_calculate_next_run_eq _ _ _)).
    by rewrite (assign_eq _ _ t).
  - rewrite (bind_Ok _ _ _ _ _ (_calculate_next_run_eq _ _ _)).
    by rewrite (assign_eq _ _ t).
Qed.

Lemma _save_task_eq task t s :
  objects s !! task = Some t →
  _save_task task s = (Ok tt, set_db (insert (task_id t) (row_of t)) s).
Proof.
  intros Ht. unfold _save_task. by rewrite (bind_Ok _ _ _ _ _ (read_eq _ _ _ Ht)).
Qed.

Lemma task_id_recorded s t : task_id (recorded s t) = task_id t.
Proof. unfold recorded. by destruct (handler_outcome s t). Qed.

Lemma schedule_type_recorded s t : schedule_type (recorded s t) = schedule_type t.
Proof. unfold recorded. by destruct (handler_outcome s t). Qed.

Lemma task_id_rescheduled now t : task_id (rescheduled now t) = task_id t.
Proof. unfold rescheduled. by destruct (schedule_type t). Qed.

Lemma _execute_task_eq task t s :
  objects s !! task = Some t →
  _execute_task task s = (Ok tt, after_dispatch task t s).
Proof.
  intros Ht. pose proof (lookup_lt_Some _ _ _ Ht) as Hlt.
  unfold _execute_task.
  rewrite (bind_Ok _ _ _ _ _ (assign_eq _ _ _ _ Ht)).
  unfold try_finally.
  rewrite (attempt_eq task (with_status RUNNING t)) by lookup_inserted.
  erewrite bind_Ok; last first.
  { apply update_next_run_eq. lookup_inserted. }
  erewrite _save_task_eq; last by lookup_inserted.
  rewrite task_id_rescheduled, task_id_recorded, schedule_type_recorded.
  destruct s as [reg run hd objs d ck ti uu dr ca].
  unfold after_dispatch, dispatched, after_attempt, set_db, set_ticks, set_objects,
    recorded, recorded_ticks, handler_outcome; cbn.
  by rewrite !list_insert_insert_eq.
Qed.

Lemma lookup_after_dispatch task t s :
  objects s !! task = Some t →
  objects (after_dispatch task t s) !! task = Some (dispatched s t).
Proof. intros Ht. cbn. apply list_lookup_insert_eq. by eapply lookup_lt_Some. Qed.

Lemma status_recorded s t :
  status (recorded s t)
  = match handler_outcome s t with Ok _ => COMPLETED | Raise _ => FAILED end.
Proof. unfold recorded. by destruct (handler_outcome s t). Qed.

Lemma status_rescheduled now t : status (rescheduled now t) = status t.
Proof. unfold rescheduled. by destruct (schedule_type t). Qed.

Lemma last_run_rescheduled now t : last_run (rescheduled now t) = last_run t.
Proof. unfold rescheduled. by destruct (schedule_type t). Qed.

Lemma run_count_rescheduled now t : run_count (rescheduled now t) = run_count t.
Proof. unfold rescheduled. by destruct (schedule_type t). Qed.





Lemma for_each_create_task due s :
  for_each due (λ task, create_task (_execute_task task)) s
  = (Ok tt, dispatch_all due s).
Proof.
  revert s. induction due as [|task due IH]; intros s; [done|].
  cbn. unfold mbind, M_bind, create_task at 1. cbn. apply IH.
Qed.

Lemma _check_and_run_tasks_eq s :
  _check_and_run_tasks s
  = (Ok tt, dispatch_all (tasks_to_run (clock s (ticks s)) s)
              (set_ticks (S (ticks s)) s)).
Proof.
  unfold _check_and_run_tasks, mbind, M_bind, datetime_now, gets. cbn.
  rewrite for_each_create_task. by destruct s.
Qed.

Lemma tasks_to_run_allocated now s task :
  task ∈ tasks_to_run now s → ∃ t, objects s !! task = Some t ∧ is_due now t = true.
Proof.
  unfold tasks_to_run. rewrite list_elem_of_In, filter_In. intros [_ Hdue].
  destruct (objects s !! task) as [t|]; [eauto | done].
Qed.

Lemma dispatch_all_cons task t due s :
  objects s !! task = Some t →
  dispatch_all (task :: due) s = dispatch_all due (after_dispatch task t s).
Proof. intros Ht. unfold dispatch_all, run. cbn. by rewrite (_execute_task_eq _ _ _ Ht). Qed.

(** An invariant of single dispatches is an invariant of a whole batch. *)
Lemma dispatch_all_ind (P : state → Prop) due s :
  P s →
  Forall (λ task, is_Some (objects s !! task)) due →
  (∀ s task t, P s → task ∈ due → objects s !! task = Some t →
               P (after_dispatch task t s)) →
  P (dispatch_all due s).
Proof.
  revert s. induction due as [|task due IH]; intros s HP Hall Hstep; [done|].
  apply Forall_cons in Hall as [[t Ht] Hall].
  rewrite (dispatch_all_cons _ _ _ _ Ht). apply IH.
  - apply Hstep; [done | set_solver | done].
  - eapply Forall_impl; [exact Hall|]. intros l [tl Hl]. cbn.
    apply lookup_lt_is_Some. rewrite length_insert. by eapply lookup_lt_Some.
  - intros s' l tl HP' Hin Hl. apply Hstep; [done | set_solver | done].
Qed.

Lemma tasks_to_run_Forall now s :
  Forall (λ task, is_Some (objects s !! task)) (tasks_to_run now s).
Proof.
  apply Forall_forall. intros task Hin.
  destruct (tasks_to_run_allocated _ _ _ Hin) as (t & Ht & _). eauto.
Qed.




Lemma _running_dispatch_all due s :
  Forall (λ task, is_Some (objects s !! task)) due →
  _running (dispatch_all due s) = _running s.
Proof.
  intros Hall. by apply (dispatch_all_ind (λ s', _running s' = _running s)).
Qed.

Lemma run_wake_up_eq s :
  run _check_and_run_tasks s
  = dispatch_all (tasks_to_run (clock s (ticks s)) s) (set_ticks (S (ticks s)) s).
Proof. unfold run. by rewrite _check_and_run_tasks_eq. Qed.

Lemma start_loop_eq cycles s :
  _running s = true → start_loop cycles s = (Ok tt, wake_ups cycles s).
Proof.
  revert s. induction cycles as [|k IH]; intros s Hrun; [done|].
  unfold wake_ups. rewrite Nat.iter_succ_r, run_wake_up_eq.
  cbn. unfold mbind, M_bind, gets. cbn. rewrite Hrun, _check_and_run_tasks_eq.
  unfold sleep. cbn. rewrite IH.
  - done.
  - rewrite _running_dispatch_all; [done | exact (tasks_to_run_Forall _ s)].
Qed.


(** ** The public operations as elementary state changes *)

Lemma add_task_eq name ty value p session s :
  add_task name ty value p session s
  = (Ok (uuids s (drawn s)), after_add_task (created s name ty value p session) s).
Proof.
  unfold add_task, uuid4, ScheduledTask_init.
  unfold mbind at 1, M_bind at 1. cbn.
  erewrite bind_Ok; last first.
  { erewrite bind_Ok; [|apply _calculate_next_run_eq]. reflexivity. }
  unfold mbind at 1, M_bind at 1. cbn.
  erewrite bind_Ok; last first.
  { apply _save_task_eq. cbn. rewrite lookup_app_r by done.
    by rewrite Nat.sub_diag. }
  by destruct s.
Qed.

Lemma remove_task_eq id s :
  remove_task id s
  = match tasks s !! id with
    | Some task => (Ok true, after_remove_task id task s)
    | None => (Ok false, s)
    end.
Proof.
  unfold remove_task, mbind, M_bind, gets. cbn.
  destruct (tasks s !! id) as [task|]; [|done]. by destruct s.
Qed.

Lemma parse_time_eq time_str s :
  parse_time time_str s
  = (match parsed_time (clock s (ticks s)) time_str with
     | Some d => Ok d
     | None => Raise (ValueError (String.append "Invalid time format: " time_str))
     end,
     match fromisoformat time_str with
     | Some _ => s
     | None => set_ticks (S (ticks s)) s
     end).
Proof.
  unfold parse_time, parsed_time, try_except_ValueError, or_ValueError, mbind, M_bind,
    datetime_now, raise.
  destruct (fromisoformat time_str); cbn; [done|].
  by destruct (strptime_HM time_str).
Qed.

Lemma set_ticks_id s : set_ticks (ticks s) s = s.
Proof. by destruct s. Qed.

Lemma transitions_add_task name ty value p session s :
  rtc transition s (run (add_task name ty value p session) s).
Proof.
  unfold run. rewrite add_task_eq. cbn. apply rtc_once. by apply transition_add.
Qed.

Lemma transitions_add_reminder session message remind_at description s :
  rtc transition s (run (add_reminder session message remind_at description) s).
Proof.
  unfold run, add_reminder. unfold mbind at 1, M_bind at 1. rewrite parse_time_eq.
  set (s1 := match fromisoformat remind_at with
             | Some _ => s
             | None => set_ticks (S (ticks s)) s
             end).
  assert (Hs1 : rtc transition s s1).
  { subst s1. destruct (fromisoformat remind_at); [done|].
    apply rtc_once, transition_ticks. }
  destruct (parsed_time (clock s (ticks s)) remind_at) as [parsed|]; [|done].
  unfold mbind, M_bind, datetime_now. rewrite add_task_eq. cbn.
  etrans; [exact Hs1|].
  eapply rtc_l; [apply (transition_ticks _ (S (ticks s1)))|].
  apply rtc_once. by apply transition_add.
Qed.

Lemma registered_tasks_to_run now s task :
  task ∈ tasks_to_run now s → ∃ id, tasks s !! id = Some task.
Proof.
  unfold tasks_to_run. rewrite list_elem_of_In, filter_In, <- list_elem_of_In.
  intros [Hin _]. apply list_elem_of_fmap in Hin as ([id l] & -> & Hin).
  exists id. by apply elem_of_map_to_list in Hin.
Qed.

Lemma transitions_dispatch_all due s :
  Forall (λ task, (∃ id, tasks s !! id = Some task) ∧ is_Some (objects s !! task)) due →
  rtc transition s (dispatch_all due s).
Proof.
  revert s. induction due as [|task due IH]; intros s Hall; [done|].
  apply Forall_cons in Hall as [[[id Hid] [t Ht]] Hall].
  rewrite (dispatch_all_cons _ _ _ _ Ht).
  eapply rtc_l; [by eapply transition_dispatch|].
  apply IH. eapply Forall_impl; [exact Hall|].
  intros l [Hreg [tl Hl]]. split; [done|]. cbn.
  apply lookup_lt_is_Some. rewrite length_insert. by eapply lookup_lt_Some.
Qed.

Lemma transitions_wake_up s : rtc transition s (run _check_and_run_tasks s).
Proof.
  rewrite run_wake_up_eq.
  eapply rtc_l; [apply (transition_ticks _ (S (ticks s)))|].
  apply transitions_dispatch_all, Forall_forall. intros task Hin. split.
  - by eapply (registered_tasks_to_run _ s).
  - destruct (tasks_to_run_allocated _ _ _ Hin) as (t & Ht & _). eauto.
Qed.

Lemma transitions_wake_ups cycles s : rtc transition s (wake_ups cycles s).
Proof.
  induction cycles as [|k IH]; [done|].
  unfold wake_ups. cbn. etrans; [exact IH|]. apply transitions_wake_up.
Qed.

Lemma transitions_start cycles s : rtc transition s (run (start cycles) s).
Proof.
  unfold run, start, mbind, M_bind, gets. cbn.
  destruct (_running s) eqn:Hrun; [done|]. cbn.
  rewrite start_loop_eq by (by destruct s). cbn.
  eapply rtc_l; [apply (transition_running _ true)|]. apply transitions_wake_ups.
Qed.

Lemma transitions_perform c s : rtc transition s (perform c s).
Proof.
  destruct c; cbn.
  - apply transitions_add_task.
  - apply transitions_add_reminder.
  - apply transitions_add_task.
  - unfold run. rewrite remove_task_eq.
    destruct (tasks s !! id) as [task|] eqn:Hid; [|done].
    apply rtc_once. by apply transition_remove.
  - apply rtc_once, transition_handler.
  - apply transitions_start.
  - apply rtc_once, transition_running.
  - apply transitions_wake_up.
Qed.

Lemma Scheduler_init_blank ck uu : run Scheduler_init (blank ck uu) = blank ck uu.
Proof.
  unfold run, Scheduler_init, _load_tasks, mbind, M_bind, gets, modify. cbn.
  by rewrite map_to_list_empty.
Qed.

(** ** Invariants of the elementary state changes *)

Lemma mirrors_transition s s' : transition s s' → mirrors s → mirrors s'.
Proof.
  intros Htr Hm. destruct Htr as [s n|s h|s b|s t Hid|s id task Hid|s id task t Hid Ht];
    try exact Hm.
  - (* add *)
    intros id' l Hl. cbn in *.
    destruct (decide (task_id t = id')) as [<-|Hne].
    + rewrite lookup_insert_eq in Hl. injection Hl as <-. exists t.
      rewrite lookup_app_r, Nat.sub_diag, lookup_insert_eq by done. done.
    + rewrite lookup_insert_ne in Hl by done.
      destruct (Hm id' l Hl) as (t0 & Ht0 & Hid0 & Hrow).
      exists t0. rewrite lookup_insert_ne by done.
      split_and!; [by apply lookup_app_l_Some | done | done].
  - (* remove *)
    intros id' l Hl. cbn in *.
    destruct (decide (id = id')) as [<-|Hne]; [by rewrite lookup_delete_eq in Hl|].
    rewrite lookup_delete_ne in Hl by done.
    destruct (Hm id' l Hl) as (t0 & Ht0 & Hid0 & Hrow).
    destruct (Hm id task Hid) as (t1 & Ht1 & Hid1 & _).
    assert (task ≠ l) by (intros ->; congruence).
    exists t0. rewrite !list_lookup_alter_ne, lookup_delete_ne by done. done.
  - (* dispatch *)
    intros id' l Hl. cbn in *.
    destruct (Hm id task Hid) as (t1 & Ht1 & Hid1 & _).
    assert (t1 = t) as -> by congruence.
    assert (Hidd : task_id (dispatched s t) = task_id t).
    { unfold dispatched. by rewrite task_id_rescheduled, task_id_recorded. }
    destruct (decide (l = task)) as [->|Hne].
    + assert (id' = id) as ->.
      { destruct (Hm id' task Hl) as (t2 & Ht2 & Hid2 & _). congruence. }
      exists (dispatched s t). rewrite Hid1, lookup_insert_eq.
      split_and!; [|congruence|done].
      apply list_lookup_insert_eq. by eapply lookup_lt_Some.
    + destruct (Hm id' l Hl) as (t0 & Ht0 & Hid0 & Hrow).
      assert (id' ≠ id) by (intros ->; congruence).
      exists t0. rewrite list_lookup_insert_ne, Hid1, lookup_insert_ne by done. done.
Qed.


Lemma enabled_dispatched s t : enabled t = false → enabled (dispatched s t) = false.
Proof.
  intros Hen. unfold dispatched, rescheduled, recorded.
  destruct (handler_outcome _ _); cbn; by destruct (schedule_type t).
Qed.

Lemma enabled_dispatched_ONCE s t :
  schedule_type t = ONCE → enabled (dispatched s t) = false.
Proof.
  intros Hty. unfold dispatched, rescheduled. rewrite schedule_type_recorded.
  cbn. by rewrite Hty.
Qed.

Lemma retired_transition task s s' :
  transition s s' → retired task s → retired task s'.
Proof.
  intros Htr (t0 & Ht0 & Hen).
  destruct Htr as [s n|s h|s b|s t Hid|s id l Hid|s id l t Hid Ht];
    try (by exists t0).
  - exists t0. split; [|done]. cbn. by apply lookup_app_l_Some.
  - destruct (decide (l = task)) as [->|Hne].
    + eexists. cbn. rewrite !list_lookup_alter_eq, Ht0. done.
    + exists t0. cbn. by rewrite !list_lookup_alter_ne.
  - destruct (decide (l = task)) as [->|Hne].
    + assert (t = t0) as -> by congruence.
      exists (dispatched s t0). split; [by apply lookup_after_dispatch|].
      by apply enabled_dispatched.
    + exists t0. cbn. by rewrite list_lookup_insert_ne.
Qed.

Lemma retired_perform task c s : retired task s → retired task (perform c s).
Proof.
  intros Hret. pose proof (transitions_perform c s) as Htr.
  induction Htr; eauto using retired_transition.
Qed.

Lemma load_row_objects id row s :
  ∃ extra, objects (run (load_row id row) s) = objects s ++ extra.
Proof.
  destruct s as [reg rn hd objs d ck ti uu dr ca].
  unfold run, load_row, ScheduledTask_init, mbind, M_bind, or_ValueError.
  destruct (ScheduleType_of_value _) as [ty|]; cbn; [|by exists []; rewrite app_nil_r].
  destruct (json_loads _) as [p|]; cbn; [|by exists []; rewrite app_nil_r].
  rewrite _calculate_next_run_eq. cbn.
  destruct (fromisoformat (col_next_run row)) as [next|]; cbn; [|by eexists].
  destruct (truthy (col_last_run row)); cbn.
  - destruct (fromisoformat (default EmptyString (col_last_run row))) as [last|]; cbn.
    + rewrite !alter_snoc. by eexists.
    + rewrite !alter_snoc. by eexists.
  - rewrite !alter_snoc. by eexists.
Qed.

Lemma load_rows_objects (rows : list (string * Row)) s :
  ∃ extra, objects (run (for_each rows (λ kv, load_row kv.1 kv.2)) s)
           = objects s ++ extra.
Proof.
  revert s. induction rows as [|[id row] rows IH]; intros s.
  - exists []. cbn. by rewrite app_nil_r.
  - destruct (load_row_objects id row s) as [extra1 Hextra1].
    unfold run in *. cbn. unfold mbind, M_bind.
    destruct (load_row id row s) as [[[]|e] s1]; cbn in *.
    + destruct (IH s1) as [extra Hextra]. exists (extra1 ++ extra).
      by rewrite Hextra, Hextra1, app_assoc.
    + by exists extra1.
Qed.

Lemma retired_restart task s : retired task s → retired task (run Scheduler_init s).
Proof.
  intros (t & Ht & Hen).
  unfold run, Scheduler_init, _init_db, _load_tasks, mbind, M_bind, modify, gets. cbn.
  match goal with
  | |- retired _ (for_each ?rows ?body ?s0).2 =>
      destruct (load_rows_objects rows s0) as [extra Hextra]
  end.
  exists t. split; [|done]. unfold run in Hextra. rewrite Hextra. cbn.
  by apply lookup_app_l_Some.
Qed.

Lemma retired_events task (later : list event) s :
  retired task s → retired task (foldl (λ s e, occur e s) s later).
Proof.
  revert s. induction later as [|e later IH]; intros s Hret; [done|].
  cbn. apply IH. destruct e; [by apply retired_perform | by apply retired_restart].
Qed.

Lemma retired_not_due task now s : retired task s → task ∉ tasks_to_run now s.
Proof.
  intros (t & Ht & Hen) Hin.
  destruct (tasks_to_run_allocated _ _ _ Hin) as (t' & Ht' & Hdue).
  assert (t' = t) as -> by congruence.
  unfold is_due in Hdue. by rewrite Hen in Hdue.
Qed.



(** ** Saving and loading *)

Lemma task_id_decoded id row t : decoded id row = Some t → task_id t = id.
Proof.
  unfold decoded. intros Hdec.
  destruct (ScheduleType_of_value _); [|done]. cbn in Hdec.
  destruct (json_loads _); [|done]. cbn in Hdec.
  destruct (fromisoformat (col_next_run row)); [|done]. cbn in Hdec.
  destruct (truthy _).
  - destruct (fromisoformat _); [|done]. cbn in Hdec. by injection Hdec as <-.
  - cbn in Hdec. by injection Hdec as <-.
Qed.

Lemma load_row_eq id row t s :
  decoded id row = Some t →
  load_row id row s = (Ok tt, after_load_row t s).
Proof.
  unfold decoded. intros Hdec.
  destruct (ScheduleType_of_value _) as [ty|] eqn:Hty; [|done]. cbn in Hdec.
  destruct (json_loads _) as [p|] eqn:Hp; [|done]. cbn in Hdec.
  destruct (fromisoformat (col_next_run row)) as [next|] eqn:Hnext; [|done].
  cbn in Hdec.
  destruct s as [reg run hd objs d ck ti uu dr ca].
  unfold load_row, ScheduledTask_init, mbind, M_bind. rewrite Hty, Hp. cbn.
  rewrite _calculate_next_run_eq. cbn. rewrite Hnext. cbn.
  destruct (truthy (col_last_run row)).
  - destruct (fromisoformat (default EmptyString (col_last_run row))) as [last|];
      [|done]. cbn in Hdec. injection Hdec as <-. cbn.
    unfold modify, set_tasks, set_objects, set_ticks, after_load_row. cbn.
    by rewrite !alter_snoc.
  - cbn in Hdec. injection Hdec as <-. cbn.
    unfold modify, set_tasks, set_objects, set_ticks, after_load_row. cbn.
    by rewrite !alter_snoc.
Qed.

Lemma load_rows_spec (rows : list (string * Row)) (s : state) :
  NoDup rows.*1 →
  (∀ id row, (id, row) ∈ rows → is_Some (decoded id row)) →
  ∃ s', for_each rows (λ kv, load_row kv.1 kv.2) s = (Ok tt, s')
    ∧ objects s `prefix_of` objects s'
    ∧ (∀ id, id ∉ rows.*1 → tasks s' !! id = tasks s !! id)
    ∧ ∀ id row t, (id, row) ∈ rows → decoded id row = Some t →
        ∃ task, tasks s' !! id = Some task ∧ objects s' !! task = Some t.
Proof.
  revert s. induction rows as [|[id0 row0] rows IH]; intros s Hnd Hdec.
  - exists s. split_and!; [done..|]. intros id row t Hin. by apply elem_of_nil in Hin.
  - cbn in Hnd. apply NoDup_cons in Hnd as [Hfresh Hnd].
    destruct (Hdec id0 row0) as [t0 Ht0]; [by left|].
    destruct (IH (after_load_row t0 s) Hnd) as (s' & Hrun & Hpre & Hframe & Hload).
    { intros id row Hin. apply Hdec. by right. }
    pose proof (task_id_decoded _ _ _ Ht0) as Hid0.
    exists s'. split_and!.
    + cbn. erewrite bind_Ok; [exact Hrun|]. by apply load_row_eq.
    + etrans; [|exact Hpre]. cbn. by apply prefix_app_r.
    + intros id Hid. cbn in Hid. apply not_elem_of_cons in Hid as [Hne Hid].
      rewrite (Hframe id Hid). cbn. rewrite lookup_insert_ne; [done | congruence].
    + intros id row t Hin Hdect. apply elem_of_cons in Hin as [Heq|Hin].
      * injection Heq as -> ->. assert (t = t0) as -> by congruence.
        exists (length (objects s)). split.
        -- rewrite (Hframe id0 Hfresh). cbn. by rewrite Hid0, lookup_insert_eq.
        -- eapply prefix_lookup_Some; [|exact Hpre]. cbn. apply lookup_snoc.
      * by eapply Hload.
Qed.



Lemma NoDup_fst_filter {A B} (f : A * B → bool) (l : list (A * B)) :
  NoDup l.*1 → NoDup (List.filter f l).*1.
Proof.
  induction l as [|x l IH]; cbn; [done|]. intros [Hx Hnd]%NoDup_cons.
  destruct (f x); cbn; [|by apply IH].
  apply NoDup_cons. split; [|by apply IH].
  intros Hin. apply Hx. apply list_elem_of_fmap in Hin as (y & -> & Hy).
  apply list_elem_of_fmap. exists y. split; [done|].
  apply list_elem_of_In, filter_In in Hy as [Hy _]. by apply list_elem_of_In.
Qed.


(** ** Reminders *)

Lemma add_reminder_eq session message remind_at description parsed s s1 :
  parse_time remind_at s = (Ok parsed, s1) →
  let now := clock s1 (ticks s1) in
  let remind_time := if parsed <=? now then parsed + timedelta.days 1 else parsed in
  let s2 := set_ticks (S (ticks s1)) s1 in
  add_reminder session message remind_at description s
  = (Ok (uuids s2 (drawn s2)),
     after_add_task
       (created s2 (or_Reminder description) ONCE (isoformat remind_time)
          [("type", JStr "reminder"); ("message", JStr message)] (Some session))
       s2).
Proof.
  intros Hparse now remind_time s2. unfold add_reminder.
  erewrite bind_Ok; [|exact Hparse].
  unfold mbind, M_bind, datetime_now. by rewrite add_task_eq.
Qed.

Lemma created_reminder s name remind_time p session :
  fromisoformat (isoformat remind_time) = Some remind_time →
  next_run (created s name ONCE (isoformat remind_time) p session) = remind_time.
Proof. intros Hback. cbn. by rewrite Hback. Qed.


(** C10: whenever [parse_time] answers an instant that is not later than the
    clock reading that follows, [add_reminder] registers a [ONCE] task whose
    [next_run] is that instant plus one day, added once; a full timestamp
    is answered as it is, so one lying more than a day back yields a
    [next_run] that is still in the past. *)
Theorem C10_rollover_adds_one_day_once (session message remind_at : string)
    (description : option string) (parsed : datetime) (s s1 : state) :
  parse_time remind_at s = (Ok parsed, s1) →
  let now := clock s1 (ticks s1) in
  parsed ≤ now →
  fromisoformat (isoformat (parsed + timedelta.days 1))
    = Some (parsed + timedelta.days 1) →
  (∀ full, fromisoformat remind_at = Some full → parsed = full ∧ s1 = s)
  ∧ ∃ s' id task t,
      add_reminder session message remind_at description s = (Ok id, s')
      ∧ tasks s' !! id = Some task ∧ objects s' !! task = Some t
      ∧ schedule_type t = ONCE
      ∧ next_run t = parsed + timedelta.days 1
      ∧ (parsed < now - timedelta.days 1 → next_run t < now).
Proof.
  intros Hparse now Hpast Hback. split.
  - intros full Hfull. rewrite parse_time_eq in Hparse. unfold parsed_time in Hparse.
    rewrite Hfull in Hparse. by injection Hparse as <- <-.
  - pose proof (add_reminder_eq session message remind_at description _ _ _ Hparse) as Hadd.
    cbn zeta in Hadd. fold now in Hadd.
    destruct (Z.leb_spec parsed now) as [_|Hlt]; [|lia].
    assert (Hnext : next_run (created (set_ticks (S (ticks s1)) s1)
                      (or_Reminder description) ONCE
                      (isoformat (parsed + timedelta.days 1))
                      [("type", JStr "reminder"); ("message", JStr message)]
                      (Some session)) = parsed + timedelta.days 1)
      by (by apply created_reminder).
    eexists _, _, _, _. split; [exact Hadd|].
    split; [cbn; apply lookup_insert_eq|].
    split; [cbn; apply lookup_snoc|].
    split_and!; [done | done |]. rewrite Hnext. unfold timedelta.days. lia.
Qed.
End Properties.

(** * The reference library: its parsers read back what its printers write *)

Module RefFacts.
Import Ref.

Lemma code_chr n : 0 ≤ n < 256 → code (chr n) = n.
Proof.
  intros Hn. unfold code, chr. rewrite N_ascii_embedding.
  - by rewrite Z2N.id by lia.
  - lia.
Qed.

Lemma digit_chr k : 0 ≤ k < 10 → digit (chr (48 + k)) = Some k.
Proof.
  intros Hk. unfold digit. rewrite code_chr by lia.
  destruct (Z.leb_spec 48 (48 + k)), (Z.leb_spec (48 + k) 57); try lia.
  cbn. f_equal. lia.
Qed.

Lemma number_from_snoc acc cs c :
  number_from acc (cs ++ [c])
  = v ← number_from acc cs; d ← digit c; Some (v * 10 + d).
Proof.
  revert acc. induction cs as [|c' cs IH]; intros acc; cbn.
  - by destruct (digit c).
  - destruct (digit c'); cbn; [apply IH | done].
Qed.

Lemma number_from_zfill width acc n :
  0 ≤ n →
  number_from acc (zfill width n)
  = Some (acc * 10 ^ Z.of_nat width + n mod 10 ^ Z.of_nat width).
Proof.
  revert n. induction width as [|w IH]; intros n Hn.
  - cbn. f_equal. rewrite Z.mod_1_r. lia.
  - cbn [zfill]. rewrite number_from_snoc, IH by (apply Z.div_pos; lia). cbn.
    rewrite digit_chr by (apply Z.mod_pos_bound; lia). cbn. f_equal.
    rewrite Nat2Z.inj_succ, Z.pow_succ_r by lia.
    assert (0 < 10 ^ Z.of_nat w) by (apply Z.pow_pos_nonneg; lia).
    rewrite Z.rem_mul_r by lia. lia.
Qed.

Lemma number_zfill width n :
  (0 < width)%nat → 0 ≤ n < 10 ^ Z.of_nat width → number (zfill width n) = Some n.
Proof.
  intros Hw Hn. destruct width as [|w]; [lia|].
  unfold number. destruct (zfill (S w) n) eqn:Hz.
  - cbn in Hz. by destruct (zfill w (n / 10)).
  - rewrite <- Hz, number_from_zfill by lia. f_equal.
    rewrite Z.mod_small by lia. lia.
Qed.

Lemma checks_spec check n :
  (checks check n).1 = Z.of_N n
  ∧ ((checks check n).2 = true → ∀ i, 0 ≤ i < Z.of_N n → check i = true).
Proof.
  induction n as [|n [IH1 IH2]] using N.peano_ind.
  - split; [done|]. intros _ i Hi. lia.
  - unfold checks in *. rewrite N.iter_succ.
    destruct (N.iter n _ _) as [i0 ok]. cbn in *. subst i0. split; [lia|].
    intros [Hok Hcheck]%andb_true_iff i Hi.
    destruct (decide (i = Z.of_N n)) as [->|Hne]; [done|].
    apply IH2; [done | lia].
Qed.

Lemma year_checked yoe : 0 ≤ yoe < 400 → year_check yoe = true.
Proof.
  intros Hyoe. apply (proj2 (checks_spec year_check 400)); [|done].
  vm_compute. reflexivity.
Qed.

Lemma day_checked doy : 0 ≤ doy < 366 → day_check doy = true.
Proof.
  intros Hdoy. apply (proj2 (checks_spec day_check 366)); [|done].
  vm_compute. reflexivity.
Qed.

Lemma years_passed_mono a b : 0 ≤ a ≤ b → b < 146097 → years_passed a ≤ years_passed b.
Proof.
  intros Hab Hb. unfold years_passed.
  assert (b / 1460 - a / 1460 ≤ b - a) by (Z.to_euclidean_division_equations; lia).
  assert (b / 146096 - a / 146096 ≤ b / 36524 - a / 36524).
  { destruct (decide (b = 146096)) as [->|Hne].
    - change (146096 / 146096) with 1. change (146096 / 36524) with 4.
      destruct (decide (a = 146096)) as [->|Hne]; [done|].
      rewrite (Z.div_small a 146096) by lia.
      assert (a / 36524 ≤ 3); [|lia].
      apply Z.lt_succ_r, Z.div_lt_upper_bound; lia.
    - rewrite (Z.div_small b 146096), (Z.div_small a 146096) by lia.
      assert (a / 36524 ≤ b / 36524) by (apply Z.div_le_mono; lia). lia. }
  lia.
Qed.

Lemma year_start_search (k : nat) (doe : Z) :
  0 ≤ doe < year_start (Z.of_nat k) →
  ∃ yoe, 0 ≤ yoe < Z.of_nat k ∧ year_start yoe ≤ doe < year_start (yoe + 1).
Proof.
  induction k as [|k IH]; intros Hdoe.
  - change (year_start (Z.of_nat 0)) with 0 in Hdoe. lia.
  - destruct (decide (doe < year_start (Z.of_nat k))) as [Hlt|Hge].
    + destruct IH as (yoe & Hyoe & Hin); [lia|]. exists yoe. split; [lia | done].
    + exists (Z.of_nat k). split; [lia|].
      replace (Z.of_nat k + 1) with (Z.of_nat (S k)) by lia. lia.
Qed.

(** The year and the day of the year [civil_from_days] finds for day [doe] of
    a cycle. *)
Lemma year_of_day doe :
  0 ≤ doe < 146097 →
  let yoe := years_passed doe / 365 in
  let doy := doe - year_start yoe in
  0 ≤ yoe < 400 ∧ 0 ≤ doy ≤ 365 ∧ (doy = 365 → is_leap (yoe + 1) = true).
Proof.
  intros Hdoe.
  assert (∃ yoe, 0 ≤ yoe < 400 ∧ year_start yoe ≤ doe < year_end yoe)
    as (yoe & Hyoe & Hin).
  { destruct (decide (doe < year_start 399)) as [Hlt|Hge].
    - destruct (year_start_search 399 doe) as (yoe & Hyoe & Hin).
      { change (Z.of_nat 399) with 399. lia. }
      change (Z.of_nat 399) with 399 in Hyoe.
      exists yoe. split; [lia|]. unfold year_end.
      destruct (Z.eqb_spec yoe 399); [lia | done].
    - exists 399. split; [lia|]. change (year_end 399) with 146097.
      apply Z.nlt_ge in Hge. split; [done | lia]. }
  pose proof (year_checked yoe Hyoe) as Hcheck. unfold year_check in Hcheck.
  rewrite !andb_true_iff, orb_true_iff in Hcheck.
  destruct Hcheck as ((((Hs & He) & Hlt) & Hlen) & Hleap).
  apply Z.eqb_eq in Hs, He. apply Z.ltb_lt in Hlt. apply Z.leb_le in Hlen.
  rewrite Z.leb_le in Hleap.
  assert (Hstart : 0 ≤ year_start yoe).
  { unfold year_start. Z.to_euclidean_division_equations. lia. }
  assert (Hend : year_end yoe ≤ 146097).
  { unfold year_end. destruct (Z.eqb_spec yoe 399); [done|].
    unfold year_start. Z.to_euclidean_division_equations. lia. }
  assert (Hfound : years_passed doe / 365 = yoe).
  { apply Z.le_antisymm.
    - rewrite <- He. apply Z.div_le_mono; [lia|]. apply years_passed_mono; lia.
    - rewrite <- Hs at 1. apply Z.div_le_mono; [lia|]. apply years_passed_mono; lia. }
  cbn zeta. rewrite Hfound. split; [done|]. split; [lia|].
  intros Hlast. destruct Hleap as [Hshort|Hleap]; [lia | done].
Qed.

Lemma is_leap_shift y e : is_leap (y + 400 * e) = is_leap y.
Proof.
  unfold is_leap.
  replace ((y + 400 * e) mod 4) with (y mod 4)
    by (replace (y + 400 * e) with (y + (100 * e) * 4) by lia; by rewrite Z.mod_add).
  replace ((y + 400 * e) mod 100) with (y mod 100)
    by (replace (y + 400 * e) with (y + (4 * e) * 100) by lia; by rewrite Z.mod_add).
  replace ((y + 400 * e) mod 400) with (y mod 400)
    by (replace (y + 400 * e) with (y + e * 400) by lia; by rewrite Z.mod_add).
  done.
Qed.

(** Every day of the years 1 to 9999 has a valid civil date, from which
    [days_from_civil] gives the day back. *)
Lemma civil_from_days_valid z :
  0 ≤ z < 3652059 →
  let '(y, m, d) := civil_from_days z in
  1 ≤ y ≤ 9999 ∧ 1 ≤ m ≤ 12 ∧ 1 ≤ d ≤ days_in_month y m
  ∧ days_from_civil y m d = z.
Proof.
  intros Hz. unfold civil_from_days.
  set (e := (z + 306) / 146097).
  assert (He : 0 ≤ e ≤ 24).
  { subst e. split; [apply Z.div_pos; lia|].
    apply Z.lt_succ_r, Z.div_lt_upper_bound; lia. }
  set (doe := z + 306 - e * 146097).
  assert (Hdoe : 0 ≤ doe < 146097).
  { subst doe e. Z.to_euclidean_division_equations. lia. }
  fold (years_passed doe).
  pose proof (year_of_day doe Hdoe) as Hyear. cbn zeta in Hyear.
  set (yoe := years_passed doe / 365) in *.
  fold (year_start yoe). set (doy := doe - year_start yoe) in *.
  destruct Hyear as (Hyoe & Hdoy & Hleap).
  pose proof (day_checked doy ltac:(lia)) as Hday. unfold day_check, month_day in Hday.
  set (mp := (5 * doy + 2) / 153) in *.
  assert (Hmp : 0 ≤ mp ≤ 11).
  { subst mp. Z.to_euclidean_division_equations. lia. }
  set (d := doy - (153 * mp + 2) / 5 + 1) in *.
  set (m := if mp <? 10 then mp + 3 else mp - 9) in *.
  rewrite !andb_true_iff in Hday. destruct Hday as (((Hm1 & Hm12) & Hd1) & Hdmax).
  apply Z.leb_le in Hm1, Hm12, Hd1, Hdmax.
  assert (Hmpm : (if 2 <? m then m - 3 else m + 9) = mp).
  { subst m. destruct (Z.ltb_spec mp 10).
    - destruct (Z.ltb_spec 2 (mp + 3)); lia.
    - destruct (Z.ltb_spec 2 (mp - 9)); lia. }
  assert (Hadj : (if m <=? 2 then 1 else 0) = (if mp <? 10 then 0 else 1)).
  { subst m. destruct (Z.ltb_spec mp 10).
    - destruct (Z.leb_spec (mp + 3) 2); lia.
    - destruct (Z.leb_spec (mp - 9) 2); lia. }
  split_and!.
  - (* the year is at least 1 *)
    rewrite Hadj. destruct (Z.ltb_spec mp 10) as [Hlow|]; [|lia].
    destruct (decide (e = 0)) as [He0|]; [|lia].
    destruct (decide (yoe = 0)) as [Hy0|]; [|lia].
    assert (306 ≤ doy).
    { subst doy doe. rewrite Hy0, He0. change (year_start 0) with 0. lia. }
    subst mp. Z.to_euclidean_division_equations. lia.
  - (* and at most 9999 *)
    rewrite Hadj. destruct (Z.ltb_spec mp 10) as [|Hhigh]; [lia|].
    destruct (decide (e = 24)) as [He24|]; [|lia].
    destruct (decide (yoe = 399)) as [Hy399|]; [|lia].
    assert (doy < 306).
    { subst doy doe. rewrite Hy399, He24. change (year_start 399) with 145731. lia. }
    subst mp. Z.to_euclidean_division_equations. lia.
  - done.
  - done.
  - done.
  - (* the day exists in its month *)
    etrans; [exact Hdmax|].
    destruct (Z.eqb_spec m 2) as [Hm2|Hm2].
    + unfold days_in_month. rewrite Hm2. cbn [Z.eqb Pos.eqb].
      destruct (Z.eqb_spec doy 365) as [Hlast|]; [|destruct (is_leap (yoe + e * 400 + _)); lia].
      assert (Hy : yoe + e * 400 + (if 2 <=? 2 then 1 else 0) = yoe + 1 + 400 * e)
        by (cbn; lia).
      rewrite Hy, is_leap_shift, Hleap; done.
    + unfold days_in_month. destruct (Z.eqb_spec m 2); [done|]. done.
  - (* and gives the day back *)
    unfold days_from_civil. rewrite Hmpm.
    replace (if m <=? 2 then yoe + e * 400 + (if m <=? 2 then 1 else 0) - 1
             else yoe + e * 400 + (if m <=? 2 then 1 else 0))
      with (yoe + e * 400) by (destruct (m <=? 2); lia).
    rewrite Z.div_add, (Z.div_small yoe 400) by lia.
    cbn zeta.
    replace (yoe + e * 400 - (0 + e) * 400) with yoe by lia.
    replace ((153 * mp + 2) / 5 + d - 1) with doy by (subst d; lia).
    fold (year_start yoe) in *.
    unfold year_start in *. subst doy doe. lia.
Qed.

Lemma zfill_2 n : ∃ a b, zfill 2 n = [a; b].
Proof. by eexists _, _. Qed.

Lemma zfill_4 n : ∃ a b c d, zfill 4 n = [a; b; c; d].
Proof. by eexists _, _, _, _. Qed.

Lemma zfill_6 n : ∃ a b c d e f, zfill 6 n = [a; b; c; d; e; f].
Proof. by eexists _, _, _, _, _, _. Qed.

Lemma chars_text cs : chars (text cs) = cs.
Proof. apply list_ascii_of_string_of_list_ascii. Qed.

(** The reference parser reads back what the reference printer writes for
    every instant of the years 1 to 9999. *)
Lemma fromisoformat_isoformat dt :
  0 ≤ dt < timedelta.days 3652059 →
  fromisoformat (isoformat dt) = Some dt.
Proof.
  intros Hdt. unfold timedelta.days in Hdt. unfold isoformat, timedelta.days.
  set (day := dt / (1 * 86400 * 1000000)).
  set (rest := dt mod (1 * 86400 * 1000000)).
  assert (Hrest : 0 ≤ rest < 86400 * 1000000) by (apply Z.mod_pos_bound; lia).
  assert (Hsplit : dt = 86400 * 1000000 * day + rest).
  { subst day rest. rewrite <- Z.div_mod by lia. done. }
  assert (Hday : 0 ≤ day < 3652059).
  { subst day. split; [apply Z.div_pos; lia|]. apply Z.div_lt_upper_bound; lia. }
  pose proof (civil_from_days_valid day Hday) as Hcivil.
  destruct (civil_from_days day) as [[y m] d].
  destruct Hcivil as (Hy & Hm & Hd & Hback).
  set (us := rest mod 1000000). set (secs := rest / 1000000).
  assert (Hus : 0 ≤ us < 1000000) by (apply Z.mod_pos_bound; lia).
  assert (Hsecs : 0 ≤ secs < 86400).
  { subst secs. split; [apply Z.div_pos; lia|]. apply Z.div_lt_upper_bound; lia. }
  assert (Hrest' : rest = 1000000 * secs + us).
  { subst secs us. apply Z.div_mod. lia. }
  assert (Hdim : days_in_month y m ≤ 31).
  { unfold days_in_month. repeat case_match; lia. }
  unfold fromisoformat. rewrite chars_text.
  destruct (zfill_4 y) as (y1 & y2 & y3 & y4 & Ey).
  destruct (zfill_2 m) as (m1 & m2 & Em).
  destruct (zfill_2 d) as (d1 & d2 & Ed).
  destruct (zfill_2 (secs / 3600)) as (h1 & h2 & Eh).
  destruct (zfill_2 (secs / 60 mod 60)) as (n1 & n2 & En).
  destruct (zfill_2 (secs mod 60)) as (s1 & s2 & Es).
  destruct (zfill_6 us) as (f1 & f2 & f3 & f4 & f5 & f6 & Ef).
  rewrite Ey, Em, Ed, Eh, En, Es, Ef.
  cbn [app]. rewrite <- Ey, <- Em, <- Ed.
  rewrite !number_zfill by (cbn; lia). cbn [mbind option_bind].
  assert (Hhh : 0 ≤ secs / 3600 < 24).
  { split; [apply Z.div_pos; lia | apply Z.div_lt_upper_bound; lia]. }
  assert (Hmm : 0 ≤ secs / 60 mod 60 < 60) by (apply Z.mod_pos_bound; lia).
  assert (Hss : 0 ≤ secs mod 60 < 60) by (apply Z.mod_pos_bound; lia).
  assert (Hmake : make_datetime y m d (secs / 3600) (secs / 60 mod 60) (secs mod 60) us
                  = Some dt).
  { unfold make_datetime.
    repeat match goal with
           | |- context [?a <=? ?b] => destruct (Z.leb_spec a b); [|lia]
           | |- context [?a <? ?b] => destruct (Z.ltb_spec a b); [|lia]
           end.
    cbn [andb]. f_equal. rewrite Hback.
    unfold timedelta.days, timedelta.hours, timedelta.minutes, timedelta.seconds.
    pose proof (Z.div_mod secs 60 ltac:(lia)) as E1.
    pose proof (Z.div_mod (secs / 60) 60 ltac:(lia)) as E2.
    rewrite Z.div_div in E2 by lia. change (60 * 60) with 3600 in E2.
    clearbody day rest us secs. lia. }
  unfold parse_time_part.
  destruct (Z.eqb_spec us 0) as [Hzero|Hnz].
  - rewrite <- Eh, <- En, <- Es. rewrite !number_zfill by (cbn; lia).
    cbn [mbind option_bind]. by rewrite <- Hzero.
  - rewrite <- Eh, <- En, <- Es, <- Ef. rewrite !number_zfill by (cbn; lia).
    cbn [mbind option_bind]. done.
Qed.

(** A time of day written on two digits each is no ISO timestamp for the
    reference parser, and [strptime] reads it back. *)
Lemma time_of_day_parses hour minute :
  0 ≤ hour < 24 → 0 ≤ minute < 60 →
  let remind_at := text (zfill 2 hour ++ ":"%char :: zfill 2 minute) in
  fromisoformat remind_at = None ∧ strptime_HM remind_at = Some (hour, minute).
Proof.
  intros Hh Hm remind_at. subst remind_at.
  unfold fromisoformat, strptime_HM. rewrite list_ascii_of_string_of_list_ascii.
  destruct (zfill_2 hour) as (h1 & h2 & Eh), (zfill_2 minute) as (m1 & m2 & Em).
  rewrite Eh, Em. cbn [app]. split.
  { by destruct m2 as [[] [] [] [] [] [] [] []]. }
  pose proof (number_zfill 2 hour) as Hhour. rewrite Eh in Hhour.
  pose proof (number_zfill 2 minute) as Hminute. rewrite Em in Hminute.
  assert (Hlt : (hour <? 24) = true ∧ (minute <? 60) = true) by lia.
  destruct Hlt as [Hlth Hltm].
  destruct h2 as [[] [] [] [] [] [] [] []];
    cbn [mbind option_bind];
    rewrite Hhour, ?Hminute by (cbn; lia);
    cbn [mbind option_bind]; rewrite ?Hlth, ?Hminute by (cbn; lia);
    cbn [mbind option_bind]; rewrite ?Hltm; try done.
Qed.

Lemma isoformat_truthy dt : truthy (Some (isoformat dt)) = true.
Proof.
  unfold isoformat. destruct (civil_from_days _) as [[y m] d].
  cbn [zfill]. by destruct (zfill 3 (y / 10)).
Qed.
End RefFacts.

(** * The properties on the concrete runs *)

Section Runs.
Import Scenario.
#[local] Existing Instance Ref.lib.

Lemma always_raises_failing : always_raises failing.
Proof. intros n t. by eexists. Qed.

Lemma reachable_once_retired : reachable once_retired.
Proof. do 2 apply reachable_call. apply reachable_init. Qed.












(** Witness of C10: at 11:00 of 2026-02-16 a reminder for 09:00 of 2026-02-10
    is set for 09:00 of 2026-02-11, five days back. *)
Lemma C10_witness :
  (∀ full, fromisoformat "2026-02-10T09:00:00" = Some full →
           63906310800000000 = full ∧ boot frozen = boot frozen)
  ∧ ∃ s' id task t,
      add_reminder "session" "Check mail" "2026-02-10T09:00:00" None (boot frozen)
      = (Ok id, s')
      ∧ tasks s' !! id = Some task ∧ objects s' !! task = Some t
      ∧ schedule_type t = ONCE
      ∧ next_run t = 63906310800000000 + timedelta.days 1
      ∧ (63906310800000000 < T0 - timedelta.days 1 → next_run t < T0).
Proof.
  apply (C10_rollover_adds_one_day_once "session" "Check mail" "2026-02-10T09:00:00"
           None 63906310800000000 (boot frozen) (boot frozen)).
  - vm_compute. reflexivity.
  - vm_compute. discriminate.
  - vm_compute. reflexivity.
Defined.
End Runs.

(** * The calculator within Python's ranges *)

Section RangedFacts.
Context `{PyLib}.

Lemma timedelta_new_eq delta s :
  Ranged.timedelta_new delta s
  = (if (-999999999 <=? delta / timedelta.days 1)
        && (delta / timedelta.days 1 <=? 999999999)
     then Ok delta else Raise OverflowError, s).
Proof. unfold Ranged.timedelta_new. by destruct (_ && _). Qed.

Lemma ranged_plus_eq now delta s :
  (d ← Ranged.timedelta_new delta; Ranged.datetime_add now d) s
  = (Ranged.plus now delta, s).
Proof.
  unfold mbind, M_bind. rewrite timedelta_new_eq.
  unfold Ranged.plus, Ranged.representable, Ranged.datetime_add.
  destruct (-999999999 <=? _), (_ <=? 999999999); cbn; try done.
  by destruct (0 <=? now + delta), (now + delta <? Ranged.datetime_end).
Qed.

Lemma ranged_calculator_eq ty value s :
  Ranged._calculate_next_run ty value s
  = (Ranged.next_run_at (clock s (ticks s)) ty value, set_ticks (S (ticks s)) s).
Proof.
  unfold Ranged._calculate_next_run, Ranged.next_run_at, datetime_now.
  unfold mbind at 1, M_bind at 1.
  set (now := clock s (ticks s)). set (s1 := set_ticks _ s).
  destruct ty.
  - unfold try_except_ValueError, or_ValueError.
    destruct (fromisoformat value); [done|].
    unfold raise at 1. cbv beta iota. apply ranged_plus_eq.
  - unfold try_except_ValueError, or_ValueError.
    destruct (int_of_str value) as [minutes|].
    + unfold mbind at 1, M_bind at 1.
      unfold mret at 1, M_ret at 1. cbv beta iota.
      rewrite ranged_plus_eq. unfold Ranged.plus.
      by destruct (Ranged.representable _ _).
    + unfold mbind at 1, M_bind at 1.
      unfold raise at 1. cbv beta iota. apply ranged_plus_eq.
  - apply ranged_plus_eq.
Qed.

(** Where the calculator returns, it returns what the calculator on the
    unbounded line returns. *)
Lemma ranged_agrees now ty value next :
  Ranged.next_run_at now ty value = Ok next → next_run_at now ty value = next.
Proof.
  unfold Ranged.next_run_at, next_run_at, Ranged.plus.
  destruct ty.
  - destruct (fromisoformat value); cbn; [congruence|].
    destruct (Ranged.representable _ _); congruence.
  - destruct (int_of_str value); cbn; destruct (Ranged.representable _ _); congruence.
  - destruct (Ranged.representable _ _); congruence.
Qed.

(** C6 (amended): for the clock reading [now], [_calculate_next_run] answers,
    for [ONCE], the expression parsed as a timestamp or else [now] plus one
    hour; for [INTERVAL], [now] plus the expression parsed as integer minutes
    or else [now] plus one hour; for [CRON], [now] plus one hour whatever the
    expression; where adding a duration to [now] answers the sum when
    the duration has at most 999999999 days and the sum lies in the years
    1..9999, and raises [OverflowError] otherwise.  Where it returns, the
    calculator on the unbounded line returns the same. *)
Theorem C6_schedule_calculator (ty : ScheduleType) (value : string) (s : state) :
  let now := clock s (ticks s) in
  let plus (delta : Z) : result datetime :=
    if Ranged.representable now delta then Ok (now + delta)
    else Raise OverflowError in
  ∃ answer,
    Ranged._calculate_next_run ty value s = (answer, set_ticks (S (ticks s)) s)
    ∧ match ty with
      | ONCE =>
          match fromisoformat value with
          | Some parsed => answer = Ok parsed
          | None => answer = plus (timedelta.hours 1)
          end
      | INTERVAL =>
          match int_of_str value with
          | Some minutes => answer = plus (timedelta.minutes minutes)
          | None => answer = plus (timedelta.hours 1)
          end
      | CRON => answer = plus (timedelta.hours 1)
      end
    ∧ ∀ next, answer = Ok next →
        _calculate_next_run ty value s = (Ok next, set_ticks (S (ticks s)) s).
Proof.
  intros now plus. eexists. split; [apply ranged_calculator_eq|]. fold now. split.
  - unfold Ranged.next_run_at.
    destruct ty; [by destruct (fromisoformat value) | by destruct (int_of_str value) | done].
  - intros next Hnext. rewrite _calculate_next_run_eq. fold now.
    by rewrite (ranged_agrees _ _ _ _ Hnext).
Qed.

(** ** Adding a task *)

Lemma ranged_add_task_eq name ty value p session s :
  Ranged.add_task name ty value p session s
  = match Ranged.next_run_at (clock s (ticks s)) ty value with
    | Ok next =>
        (Ok (uuids s (drawn s)),
         after_add_task
           (mkTask (uuids s (drawn s)) name ty value p session true PENDING next None 0)
           s)
    | Raise e => (Raise e, set_ticks (S (ticks s)) (set_drawn (S (drawn s)) s))
    end.
Proof.
  unfold Ranged.add_task, uuid4, Ranged.ScheduledTask_init.
  unfold mbind at 1, M_bind at 1. cbn.
  unfold mbind at 1, M_bind at 1. unfold mbind at 1, M_bind at 1.
  rewrite ranged_calculator_eq. cbn.
  destruct (Ranged.next_run_at _ ty value) as [next|e]; [|by destruct s].
  unfold new at 1. cbn. unfold mbind at 1, M_bind at 1. unfold modify at 1. cbn.
  erewrite bind_Ok; last first.
  { apply _save_task_eq. cbn. rewrite lookup_app_r by done.
    by rewrite Nat.sub_diag. }
  by destruct s.
Qed.

End RangedFacts.

(** * Dispatches in flight *)

Section LoopFacts.
Context `{PyLib}.

Lemma settle_eq task t outcome s :
  objects s !! task = Some t →
  try_except_Exception
    (match outcome with Ok _ => mret tt | Raise e => raise e end;;
     assign task (with_status COMPLETED);;
     now ← datetime_now;
     assign task (with_last_run (Some now));;
     assign task (λ t, with_run_count (run_count t + 1) t))
    (λ e, assign task (with_status FAILED)) s
  = (Ok tt,
     set_ticks (settled_ticks outcome (ticks s))
       (set_objects (λ objs, <[task := settled outcome (clock s (ticks s)) t]> objs) s)).
Proof.
  intros Ht.
  destruct s as [reg run hd objs d ck ti uu dr ca]; cbn in Ht.
  unfold settled, settled_ticks, try_except_Exception, assign, modify, mbind, M_bind,
    datetime_now, mret, M_ret, raise, set_objects, set_ticks; cbn.
  destruct outcome as [[]|e]; cbn.
  - rewrite !list_alter_alter_eq. by erewrite alter_present by done.
  - by erewrite alter_present by done.
Qed.

Lemma task_id_settled outcome now t : task_id (settled outcome now t) = task_id t.
Proof. by destruct outcome. Qed.

Lemma schedule_type_settled outcome now t :
  schedule_type (settled outcome now t) = schedule_type t.
Proof. by destruct outcome. Qed.

Lemma enabled_settled outcome now t : enabled (settled outcome now t) = enabled t.
Proof. by destruct outcome. Qed.

Lemma status_settled outcome now t :
  status (settled outcome now t)
  = match outcome with Ok _ => COMPLETED | Raise _ => FAILED end.
Proof. by destruct outcome. Qed.

Lemma finish_dispatch_eq task t outcome s :
  objects s !! task = Some t →
  finish_dispatch task outcome s = (Ok tt, after_finish task t outcome s).
Proof.
  intros Ht. pose proof (lookup_lt_Some _ _ _ Ht) as Hlt.
  unfold finish_dispatch, try_finally.
  rewrite (settle_eq task t) by done.
  erewrite bind_Ok; last first.
  { apply update_next_run_eq. cbn. by apply list_lookup_insert_eq. }
  erewrite _save_task_eq; last first.
  { cbn. apply list_lookup_insert_eq. by rewrite length_insert. }
  rewrite task_id_rescheduled, task_id_settled, schedule_type_settled.
  destruct s as [reg run hd objs d ck ti uu dr ca].
  unfold after_finish, finished, set_db, set_ticks, set_objects; cbn.
  by rewrite !list_insert_insert_eq.
Qed.

Lemma cancel_dispatch_eq task t s :
  objects s !! task = Some t →
  cancel_dispatch task s = (Ok tt, after_cancel task t s).
Proof.
  intros Ht. pose proof (lookup_lt_Some _ _ _ Ht) as Hlt.
  unfold cancel_dispatch.
  rewrite (bind_Ok _ _ _ _ _ (update_next_run_eq _ _ _ Ht)).
  erewrite _save_task_eq; last first.
  { cbn. by apply list_lookup_insert_eq. }
  rewrite task_id_rescheduled.
  by destruct s as [reg run hd objs d ck ti uu dr ca].
Qed.

Lemma alter_absent {A} (f : A → A) (l : list A) i : l !! i = None → alter f i l = l.
Proof.
  intros Hi. apply list_eq. intros j. destruct (decide (i = j)) as [<-|Hne].
  - rewrite list_lookup_alter_eq, Hi. done.
  - by rewrite list_lookup_alter_ne.
Qed.

(** The end of a dispatch whose task object does not exist touches no
    object. *)
Lemma finish_dispatch_absent task outcome s :
  objects s !! task = None →
  objects (run (finish_dispatch task outcome) s) = objects s.
Proof.
  intros Ht.
  destruct s as [reg rn hd objs d ck ti uu dr ca]; cbn in Ht.
  unfold run, finish_dispatch, try_finally, try_except_Exception, update_next_run,
    read, assign, modify, mbind, M_bind, datetime_now, mret, M_ret, raise,
    set_objects, set_ticks; cbn.
  destruct outcome as [[]|e]; cbn.
  - rewrite !(alter_absent _ _ _ Ht). by rewrite Ht.
  - rewrite !(alter_absent _ _ _ Ht). by rewrite Ht.
Qed.

Lemma cancel_dispatch_absent task s :
  objects s !! task = None →
  objects (run (cancel_dispatch task) s) = objects s
  ∧ tasks (run (cancel_dispatch task) s) = tasks s.
Proof.
  intros Ht.
  destruct s as [reg rn hd objs d ck ti uu dr ca]; cbn in Ht.
  unfold run, cancel_dispatch, update_next_run, read, mbind, M_bind; cbn.
  by rewrite Ht.
Qed.

(** The start of a dispatch marks the task running and changes nothing else
    but the count of handler invocations. *)
Lemma begin_dispatch_state task s s' :
  s' = (begin_dispatch task s).2 →
  objects s' = alter (with_status RUNNING) task (objects s)
  ∧ tasks s' = tasks s ∧ db s' = db s ∧ _running s' = _running s
  ∧ _task_handler s' = _task_handler s ∧ clock s' = clock s ∧ ticks s' = ticks s.
Proof.
  intros ->.
  destruct s as [reg rn hd objs d ck ti uu dr ca].
  unfold begin_dispatch, outcome_of, await_handler, read, assign, modify, gets,
    mbind, M_bind, mret, M_ret, raise, set_objects, set_calls; cbn.
  destruct hd as [handler|]; cbn; [|done].
  destruct (alter (with_status RUNNING) task objs !! task) as [t|]; cbn; [|done].
  by destruct (handler ca t).
Qed.

Lemma begin_dispatch_returns task s : ∃ outcome, (begin_dispatch task s).1 = Ok outcome.
Proof.
  destruct s as [reg rn hd objs d ck ti uu dr ca].
  unfold begin_dispatch, outcome_of, assign, modify, gets, mbind, M_bind, mret, M_ret;
    cbn.
  destruct hd as [handler|]; cbn; by eexists.
Qed.

(** A dispatch that is not suspended at the await is [_execute_task]. *)
Lemma _execute_task_split task t s :
  objects s !! task = Some t →
  (outcome ← begin_dispatch task; finish_dispatch task outcome) s
  = _execute_task task s.
Proof.
  intros Ht. rewrite (_execute_task_eq _ _ _ Ht).
  pose proof (lookup_lt_Some _ _ _ Ht) as Hlt.
  destruct s as [reg rn hd objs d ck ti uu dr ca]; cbn in Ht, Hlt.
  unfold mbind at 1, M_bind at 1.
  unfold begin_dispatch, outcome_of, await_handler, read, assign, modify, gets,
    mbind, M_bind, mret, M_ret, raise, set_objects, set_calls; cbn.
  rewrite (alter_present _ _ _ _ Ht).
  destruct hd as [handler|]; cbn.
  - rewrite list_lookup_insert_eq by done. cbn.
    destruct (handler ca (with_status RUNNING t)) as [[]|e] eqn:Hh; cbn.
    + erewrite finish_dispatch_eq by (cbn; by apply list_lookup_insert_eq).
      unfold after_finish, after_dispatch, finished, dispatched, recorded,
        recorded_ticks, handler_outcome; cbn. rewrite Hh; cbn.
      by rewrite !list_insert_insert_eq.
    + erewrite finish_dispatch_eq by (cbn; by apply list_lookup_insert_eq).
      unfold after_finish, after_dispatch, finished, dispatched, recorded,
        recorded_ticks, handler_outcome; cbn. rewrite Hh; cbn.
      by rewrite !list_insert_insert_eq.
  - erewrite finish_dispatch_eq by (cbn; by apply list_lookup_insert_eq).
    unfold after_finish, after_dispatch, finished, dispatched, recorded,
      recorded_ticks, handler_outcome; cbn.
    by rewrite !list_insert_insert_eq.
Qed.

(** ** A retired task stays retired whatever the event loop runs *)

Lemma retired_begin task' task s :
  retired task s → retired task (begin_dispatch task' s).2.
Proof.
  intros (t & Ht & Hen). unfold retired.
  destruct (begin_dispatch_state task' s _ eq_refl) as (-> & _).
  destruct (decide (task = task')) as [->|Hne].
  - exists (with_status RUNNING t). split; [|done].
    by rewrite list_lookup_alter_eq, Ht.
  - exists t. split; [|done]. by rewrite list_lookup_alter_ne.
Qed.

Lemma enabled_finished outcome s t :
  enabled t = false → enabled (finished outcome s t) = false.
Proof.
  intros Hen. unfold finished, rescheduled. rewrite schedule_type_settled.
  destruct (schedule_type t); [done| |]; cbn -[settled]; by rewrite enabled_settled.
Qed.

Lemma enabled_finished_ONCE outcome s t :
  schedule_type t = ONCE → enabled (finished outcome s t) = false.
Proof.
  intros Hty. unfold finished, rescheduled. rewrite schedule_type_settled, Hty. done.
Qed.

Lemma status_finished outcome s t :
  status (finished outcome s t)
  = match outcome with Ok _ => COMPLETED | Raise _ => FAILED end.
Proof. unfold finished. by rewrite status_rescheduled, status_settled. Qed.

Lemma retired_finish task' outcome task s :
  retired task s → retired task (run (finish_dispatch task' outcome) s).
Proof.
  intros (t & Ht & Hen). unfold retired.
  destruct (objects s !! task') as [t'|] eqn:Ht'.
  - unfold run. rewrite (finish_dispatch_eq _ _ _ _ Ht'). cbn.
    destruct (decide (task = task')) as [->|Hne].
    + exists (finished outcome s t'). split.
      * apply list_lookup_insert_eq. by eapply lookup_lt_Some.
      * apply enabled_finished. congruence.
    + exists t. split; [|done]. by rewrite list_lookup_insert_ne.
  - exists t. split; [|done]. by rewrite finish_dispatch_absent.
Qed.

Lemma retired_cancel task' task s :
  retired task s → retired task (run (cancel_dispatch task') s).
Proof.
  intros (t & Ht & Hen). unfold retired.
  destruct (objects s !! task') as [t'|] eqn:Ht'.
  - unfold run. rewrite (cancel_dispatch_eq _ _ _ Ht'). cbn.
    destruct (decide (task = task')) as [->|Hne].
    + exists (rescheduled (clock s (ticks s)) t'). split.
      * apply list_lookup_insert_eq. by eapply lookup_lt_Some.
      * unfold rescheduled. replace t' with t by congruence.
        destruct (schedule_type t); done.
    + exists t. split; [|done]. by rewrite list_lookup_insert_ne.
  - exists t. split; [|done].
    by destruct (cancel_dispatch_absent _ _ Ht') as [-> _].
Qed.

Lemma retired_act task a w :
  retired task (scheduler w) → retired task (scheduler (act a w)).
Proof.
  intros Hret. destruct a as [|i|i|i|c|]; cbn.
  - destruct (_running (scheduler w)); [|done]. destruct Hret as (t & Ht & Hen).
    unfold select_due, datetime_now, gets, mbind, M_bind. cbn. by exists t.
  - destruct (jobs w !! i) as [[task'|task' outcome]|]; try done.
    pose proof (retired_begin task' task _ Hret) as Hret'.
    by destruct (begin_dispatch task' (scheduler w)) as [[outcome|e] s'].
  - destruct (jobs w !! i) as [[task'|task' outcome]|]; try done.
    cbn. by apply retired_finish.
  - destruct (jobs w !! i) as [[task'|task' outcome]|]; try done.
    cbn. by apply retired_cancel.
  - by apply retired_perform.
  - by apply retired_restart.
Qed.

Lemma retired_acts task later w :
  retired task (scheduler w) → retired task (scheduler (acts later w)).
Proof.
  revert w. induction later as [|a later IH]; intros w Hret; [done|].
  cbn. apply IH. by apply retired_act.
Qed.

Lemma tasks_to_run_begin now task s :
  tasks_to_run now (begin_dispatch task s).2 = tasks_to_run now s.
Proof.
  destruct (begin_dispatch_state task s _ eq_refl) as (Hobj & Hta & _).
  unfold tasks_to_run. rewrite Hobj, Hta. apply filter_ext. intros l.
  destruct (decide (l = task)) as [->|Hne].
  - rewrite list_lookup_alter_eq. by destruct (objects s !! task).
  - by rewrite list_lookup_alter_ne.
Qed.

(** C4 (amended): when the dispatch of a [ONCE] task has run to its end,
    whether the handler returned or raised, the task has [enabled = false]
    and [status] is [COMPLETED] or [FAILED], and no later poll selects it,
    whatever the event loop runs afterwards; a dispatch cancelled at the
    await disables the task as well and leaves its status as it was.  The
    start of the dispatch, which lasts until the handler answers, only marks
    the task running: the task is as enabled as before, and a poll that runs
    meanwhile selects what it would have selected before, the task
    included. *)
Theorem C4_once_fires_once (task : loc) (t : ScheduledTask) (i : nat) (w : world) :
  objects (scheduler w) !! task = Some t →
  schedule_type t = ONCE →
  (∀ outcome, jobs w !! i = Some (Awaiting task outcome) →
     let w' := act (Finish_job i) w in
     ∃ t', objects (scheduler w') !! task = Some t'
       ∧ enabled t' = false
       ∧ status t' = match outcome with Ok _ => COMPLETED | Raise _ => FAILED end
       ∧ ∀ (later : list action) (now : datetime),
           task ∉ tasks_to_run now (scheduler (acts later w')))
  ∧ (∀ outcome, jobs w !! i = Some (Awaiting task outcome) →
     let w' := act (Cancel_job i) w in
     ∃ t', objects (scheduler w') !! task = Some t'
       ∧ enabled t' = false ∧ status t' = status t
       ∧ ∀ (later : list action) (now : datetime),
           task ∉ tasks_to_run now (scheduler (acts later w')))
  ∧ (jobs w !! i = Some (Created task) →
     let w' := act (Start_job i) w in
     ∃ outcome t',
       jobs w' !! i = Some (Awaiting task outcome)
       ∧ objects (scheduler w') !! task = Some t'
       ∧ status t' = RUNNING ∧ enabled t' = enabled t
       ∧ ∀ now, tasks_to_run now (scheduler w') = tasks_to_run now (scheduler w)).
Proof.
  intros Ht Hty. split_and!.
  - intros outcome Hjob w'. subst w'. cbn. rewrite Hjob. cbn.
    unfold run. rewrite (finish_dispatch_eq _ _ _ _ Ht).
    assert (objects (after_finish task t outcome (scheduler w)) !! task
            = Some (finished outcome (scheduler w) t)) as Hobj.
    { cbn. apply list_lookup_insert_eq. by eapply lookup_lt_Some. }
    exists (finished outcome (scheduler w) t). split_and!.
    + done.
    + by apply enabled_finished_ONCE.
    + apply status_finished.
    + intros later now. apply retired_not_due, retired_acts. cbn.
      eexists. split; [exact Hobj|]. by apply enabled_finished_ONCE.
  - intros outcome Hjob w'. subst w'. cbn. rewrite Hjob. cbn.
    unfold run. rewrite (cancel_dispatch_eq _ _ _ Ht).
    assert (objects (after_cancel task t (scheduler w)) !! task
            = Some (with_enabled false t)) as Hobj.
    { cbn. unfold rescheduled. rewrite Hty.
      apply list_lookup_insert_eq. by eapply lookup_lt_Some. }
    exists (with_enabled false t). split_and!; try done.
    intros later now. apply retired_not_due, retired_acts. cbn.
    eexists. split; [exact Hobj|done].
  - intros Hjob w'. subst w'. cbn. rewrite Hjob.
    destruct (begin_dispatch_returns task (scheduler w)) as [outcome Hout].
    destruct (begin_dispatch_state task (scheduler w) _ eq_refl) as (Hobj & _).
    pose proof (λ now, tasks_to_run_begin now task (scheduler w)) as Hsel.
    destruct (begin_dispatch task (scheduler w)) as [r s'] eqn:Hbegin.
    cbn in Hout, Hobj, Hsel. subst r. cbn.
    exists outcome, (with_status RUNNING t). split_and!.
    + apply list_lookup_insert_eq. by eapply lookup_lt_Some.
    + by rewrite Hobj, list_lookup_alter_eq, Ht.
    + done.
    + done.
    + done.
Qed.

End LoopFacts.

(** * Further properties of the scheduler and of its callers *)

Section Coverage.
Context `{PyLib}.

(** ** Adding, finding and removing tasks *)

Lemma lookup_after_remove_task id task t s :
  objects s !! task = Some t →
  objects (after_remove_task id task s) !! task
  = Some (with_status CANCELLED (with_enabled false t)).
Proof.
  intros Ht. cbn.
  rewrite (alter_present _ _ _ _ Ht).
  erewrite alter_present by (apply list_lookup_insert_eq; by eapply lookup_lt_Some).
  rewrite list_insert_insert_eq.
  apply list_lookup_insert_eq. by eapply lookup_lt_Some.
Qed.

Lemma lookup_after_remove_task_ne id task l s :
  l ≠ task →
  objects (after_remove_task id task s) !! l = objects s !! l.
Proof.
  intros Hne. cbn. by rewrite !list_lookup_alter_ne.
Qed.

(** X1: [remove_task] on a registered id returns [True]: the id leaves the
    registry and its row leaves the store, the task object is disabled and
    marked cancelled, every other id, row and object is as before; removing
    the same id again returns [False] and changes nothing. *)
Theorem X1_remove_task (id : string) (task : loc) (t : ScheduledTask) (s : state) :
  tasks s !! id = Some task →
  objects s !! task = Some t →
  ∃ s', remove_task id s = (Ok true, s')
    ∧ tasks s' !! id = None ∧ db s' !! id = None
    ∧ objects s' !! task = Some (with_status CANCELLED (with_enabled false t))
    ∧ (∀ id', id' ≠ id →
         tasks s' !! id' = tasks s !! id' ∧ db s' !! id' = db s !! id')
    ∧ (∀ l, l ≠ task → objects s' !! l = objects s !! l)
    ∧ remove_task id s' = (Ok false, s').
Proof.
  intros Hid Ht. exists (after_remove_task id task s).
  rewrite !remove_task_eq, Hid. cbn [tasks after_remove_task db].
  rewrite !lookup_delete_eq. split_and!; try done.
  - by apply lookup_after_remove_task.
  - intros id' Hne. by rewrite !lookup_delete_ne.
  - intros l Hne. by apply lookup_after_remove_task_ne.
Qed.

(** X2: [add_task] draws one identifier and runs the schedule calculator.
    When the calculator returns, the task is built from the arguments
    (enabled, pending, never run, first run as calculated), registered and
    saved; [get_task] then finds it under the returned id, and every other
    id, row and object is as before.  When the calculator raises
    ([OverflowError], for an interval or a clock reading out of range),
    [add_task] raises the same with the identifier drawn and nothing
    registered or saved. *)
Theorem X2_add_task_then_get_task (name : string) (ty : ScheduleType)
    (value : string) (p : payload_t) (session : option string) (s : state) :
  let id := uuids s (drawn s) in
  match (Ranged._calculate_next_run ty value s).1 with
  | Ok next =>
      ∃ task s',
        Ranged.add_task name ty value p session s = (Ok id, s')
        ∧ drawn s' = S (drawn s)
        ∧ get_task id s' = (Ok (Some task), s')
        ∧ objects s' !! task
          = Some (mkTask id name ty value p session true PENDING next None 0)
        ∧ db s' !! id
          = Some (row_of (mkTask id name ty value p session true PENDING next None 0))
        ∧ (∀ id', id' ≠ id →
             get_task id' s' = (Ok (tasks s !! id'), s')
             ∧ db s' !! id' = db s !! id')
        ∧ (∀ l t, objects s !! l = Some t → objects s' !! l = Some t)
  | Raise e =>
      ∃ s',
        Ranged.add_task name ty value p session s = (Raise e, s')
        ∧ drawn s' = S (drawn s)
        ∧ tasks s' = tasks s ∧ objects s' = objects s ∧ db s' = db s
  end.
Proof.
  intros id. rewrite ranged_add_task_eq, ranged_calculator_eq. cbn [fst].
  destruct (Ranged.next_run_at _ ty value) as [next|e].
  - eexists (length (objects s)), _. split; [done|].
    unfold get_task, gets. cbn. rewrite !lookup_insert_eq. split_and!; try done.
    + apply lookup_snoc.
    + intros id' Hne. by rewrite !lookup_insert_ne.
    + intros l t Hl. by apply lookup_app_l_Some.
  - by eexists.
Qed.

(** X3: when the identifier drawn is not in use and the schedule calculator
    returns, [add_task] followed by [remove_task] of the returned id returns
    [True] and leaves the registry and the store as they were before the two
    calls; the objects allocated before are untouched. *)
Theorem X3_add_then_remove (name : string) (ty : ScheduleType) (value : string)
    (p : payload_t) (session : option string) (next : datetime) (s : state) :
  tasks s !! uuids s (drawn s) = None →
  db s !! uuids s (drawn s) = None →
  (Ranged._calculate_next_run ty value s).1 = Ok next →
  ∃ s', (id ← Ranged.add_task name ty value p session; remove_task id) s
        = (Ok true, s')
    ∧ tasks s' = tasks s ∧ db s' = db s
    ∧ ∀ l t, objects s !! l = Some t → objects s' !! l = Some t.
Proof.
  intros Hfresh Hrow Hnext. rewrite ranged_calculator_eq in Hnext. cbn in Hnext.
  unfold mbind at 1, M_bind at 1. rewrite ranged_add_task_eq, Hnext.
  rewrite remove_task_eq. cbn [tasks after_add_task task_id].
  rewrite lookup_insert_eq. eexists. split; [done|].
  cbn. rewrite !delete_insert_id by done. split_and!; try done.
  intros l t Hl. rewrite !list_lookup_alter_ne.
  - by apply lookup_app_l_Some.
  - apply lookup_lt_Some in Hl. lia.
  - apply lookup_lt_Some in Hl. lia.
Qed.

(** ** One dispatch leaves the identity of the task alone *)

Lemma identity_recorded s t :
  name (recorded s t) = name t
  ∧ schedule_value (recorded s t) = schedule_value t
  ∧ payload (recorded s t) = payload t
  ∧ session_id (recorded s t) = session_id t
  ∧ enabled (recorded s t) = enabled t
  ∧ next_run (recorded s t) = next_run t.
Proof. unfold recorded. by destruct (handler_outcome s t). Qed.

Lemma identity_rescheduled now t :
  name (rescheduled now t) = name t
  ∧ schedule_type (rescheduled now t) = schedule_type t
  ∧ schedule_value (rescheduled now t) = schedule_value t
  ∧ payload (rescheduled now t) = payload t
  ∧ session_id (rescheduled now t) = session_id t.
Proof. unfold rescheduled. by destruct (schedule_type t) eqn:Hty. Qed.

Lemma identity_dispatched s t :
  task_id (dispatched s t) = task_id t ∧ name (dispatched s t) = name t
  ∧ schedule_type (dispatched s t) = schedule_type t
  ∧ schedule_value (dispatched s t) = schedule_value t
  ∧ payload (dispatched s t) = payload t
  ∧ session_id (dispatched s t) = session_id t
  ∧ (schedule_type t ≠ ONCE → enabled (dispatched s t) = enabled t)
  ∧ (schedule_type t = ONCE → next_run (dispatched s t) = next_run t).
Proof.
  unfold dispatched.
  set (now := clock s _).
  destruct (identity_rescheduled now (recorded s (with_status RUNNING t)))
    as (Hn & Hty & Hv & Hp & Hs).
  destruct (identity_recorded s (with_status RUNNING t))
    as (Hn' & Hv' & Hp' & Hs' & He' & Hx').
  split_and!.
  - by rewrite task_id_rescheduled, task_id_recorded.
  - by rewrite Hn, Hn'.
  - by rewrite Hty, schedule_type_recorded.
  - by rewrite Hv, Hv'.
  - by rewrite Hp, Hp'.
  - by rewrite Hs, Hs'.
  - intros Hne. unfold rescheduled. rewrite schedule_type_recorded.
    cbn [schedule_type with_status].
    destruct (schedule_type t); [done| |]; cbn; by rewrite He'.
  - intros Hty'. unfold rescheduled. rewrite schedule_type_recorded.
    cbn [schedule_type with_status]. rewrite Hty'. cbn. by rewrite Hx'.
Qed.


(** ** A batch of dispatches *)

(** What a batch of dispatches leaves alone. *)
Lemma dispatch_all_frame due s :
  Forall (λ task, is_Some (objects s !! task)) due →
  let s' := dispatch_all due s in
  tasks s' = tasks s ∧ _running s' = _running s
  ∧ _task_handler s' = _task_handler s ∧ clock s' = clock s
  ∧ uuids s' = uuids s ∧ drawn s' = drawn s
  ∧ ∀ l, l ∉ due → objects s' !! l = objects s !! l.
Proof.
  intros Hall.
  apply (dispatch_all_ind
           (λ s', tasks s' = tasks s ∧ _running s' = _running s
                  ∧ _task_handler s' = _task_handler s ∧ clock s' = clock s
                  ∧ uuids s' = uuids s ∧ drawn s' = drawn s
                  ∧ ∀ l, l ∉ due → objects s' !! l = objects s !! l));
    [done|done|].
  intros s1 task t (Hta & Hr & Hh & Hc & Hu & Hd & Hobj) Hin Ht. cbn.
  split_and!; try done.
  intros l Hl. rewrite list_lookup_insert_ne by (intros ->; done). by apply Hobj.
Qed.

Lemma dispatched_once_dispatched s t : dispatched_once t (dispatched s t).
Proof.
  unfold dispatched_once, dispatched.
  rewrite status_rescheduled, status_recorded, run_count_rescheduled,
    last_run_rescheduled.
  unfold recorded. destruct (handler_outcome s _); [left|right]; cbn; eauto.
Qed.

(** ** Invariants of the public interface *)

Section Invariant.
Variable P : state → Prop.
Hypothesis P_ticks : ∀ s n, P s → P (set_ticks n s).
Hypothesis P_handler : ∀ s h, P s → P (set_handler h s).
Hypothesis P_running : ∀ s b, P s → P (set_running b s).
Hypothesis P_add : ∀ s name ty value p session,
  P s → P (after_add_task (created s name ty value p session) s).
Hypothesis P_remove : ∀ s id task,
  tasks s !! id = Some task → P s → P (after_remove_task id task s).
Hypothesis P_dispatch : ∀ s id task t,
  tasks s !! id = Some task → objects s !! task = Some t →
  P s → P (after_dispatch task t s).

Lemma invariant_dispatch_all due s :
  Forall (λ task, (∃ id, tasks s !! id = Some task) ∧ is_Some (objects s !! task)) due →
  P s → P (dispatch_all due s).
Proof.
  revert s. induction due as [|task due IH]; intros s Hall HP; [done|].
  apply Forall_cons in Hall as [[[id Hid] [t Ht]] Hall].
  rewrite (dispatch_all_cons _ _ _ _ Ht). apply IH; [|by eapply P_dispatch].
  eapply Forall_impl; [exact Hall|].
  intros l [Hreg [tl Hl]]. split; [done|]. cbn.
  apply lookup_lt_is_Some. rewrite length_insert. by eapply lookup_lt_Some.
Qed.

Lemma invariant_wake_up s : P s → P (run _check_and_run_tasks s).
Proof.
  intros HP. rewrite run_wake_up_eq.
  apply invariant_dispatch_all; [|by apply P_ticks].
  apply Forall_forall. intros task Hin. split.
  - by eapply (registered_tasks_to_run _ s).
  - destruct (tasks_to_run_allocated _ _ _ Hin) as (t & Ht & _). eauto.
Qed.

Lemma invariant_wake_ups cycles s : P s → P (wake_ups cycles s).
Proof.
  intros HP. induction cycles as [|k IH]; [done|].
  unfold wake_ups. cbn. by apply invariant_wake_up.
Qed.

Lemma invariant_add_task name ty value p session s :
  P s → P (run (add_task name ty value p session) s).
Proof. intros HP. unfold run. rewrite add_task_eq. cbn. by apply P_add. Qed.

Lemma invariant_perform c s : P s → P (perform c s).
Proof.
  intros HP. destruct c; cbn.
  - by apply invariant_add_task.
  - unfold run, add_reminder. unfold mbind at 1, M_bind at 1. rewrite parse_time_eq.
    set (s1 := match fromisoformat remind_at with
               | Some _ => s
               | None => set_ticks (S (ticks s)) s
               end).
    assert (P s1) as HP1.
    { subst s1. destruct (fromisoformat remind_at); [done|]. by apply P_ticks. }
    destruct (parsed_time (clock s (ticks s)) remind_at) as [parsed|]; [|done].
    unfold mbind, M_bind, datetime_now. rewrite add_task_eq. cbn.
    apply (P_add (set_ticks (S (ticks s1)) s1)). by apply P_ticks.
  - by apply invariant_add_task.
  - unfold run. rewrite remove_task_eq.
    destruct (tasks s !! id) as [task|] eqn:Hid; [|done]. by apply P_remove.
  - by apply P_handler.
  - unfold run, start, mbind, M_bind, gets. cbn.
    destruct (_running s) eqn:Hrun; [done|]. cbn.
    rewrite start_loop_eq by (by destruct s). cbn.
    apply invariant_wake_ups. by apply P_running.
  - by apply P_running.
  - by apply invariant_wake_up.
Qed.

Lemma invariant_reachable s :
  (∀ ck uu, P (blank ck uu)) → reachable s → P s.
Proof.
  intros Hblank Hreach. induction Hreach as [ck uu|s c _ IH].
  - rewrite Scheduler_init_blank. apply Hblank.
  - by apply invariant_perform.
Qed.

End Invariant.

Lemma counters_dispatched_once t t' :
  dispatched_once t t' →
  0 ≤ run_count t ∧ (last_run t = None ↔ run_count t = 0) →
  0 ≤ run_count t' ∧ (last_run t' = None ↔ run_count t' = 0).
Proof.
  intros [(_ & -> & now & ->)|(_ & -> & ->)] [Hpos Hiff]; [|done].
  split; [lia|]. split; [done | lia].
Qed.

Lemma counters_agree_reachable s : reachable s → counters_agree s.
Proof.
  apply invariant_reachable; try done.
  - intros s0 name ty value p session HP l t. cbn.
    intros [Hl|[_ Hl]]%lookup_app_Some; [by eapply HP|].
    apply list_lookup_singleton_Some in Hl as [_ <-]. done.
  - intros s0 id task _ HP l t. cbn.
    destruct (decide (l = task)) as [->|Hne].
    + rewrite !list_lookup_alter_eq.
      destruct (objects s0 !! task) as [t0|] eqn:Ht0; [|done]. cbn.
      intros [= <-]. cbn. by eapply HP.
    + rewrite !list_lookup_alter_ne by done. by apply HP.
  - intros s0 id task t _ Ht HP l t'. cbn.
    destruct (decide (l = task)) as [->|Hne].
    + rewrite list_lookup_insert_eq by (by eapply lookup_lt_Some).
      intros [= <-]. eapply counters_dispatched_once;
        [apply dispatched_once_dispatched | by eapply HP].
    + rewrite list_lookup_insert_ne by done. by apply HP.
Qed.

(** X8: in every state reached through the public interface from a
    scheduler built on an empty database, the counters of every task object
    agree: the run count is not negative, and the task has a last run exactly
    when its run count is not zero. *)
Theorem X8_counters_agree (s : state) (task : loc) (t : ScheduledTask) :
  reachable s →
  objects s !! task = Some t →
  0 ≤ run_count t ∧ (last_run t = None ↔ run_count t = 0).
Proof. intros Hreach. by apply counters_agree_reachable. Qed.

(** Without a dispatch in flight the store holds exactly the rows of the
    registered tasks. *)
Lemma store_registry_reachable s :
  reachable s → mirrors s ∧ dom (db s) = dom (tasks s).
Proof.
  apply (invariant_reachable (λ s, mirrors s ∧ dom (db s) = dom (tasks s))).
  - intros s0 n [Hm Hd]. split; [|done].
    eapply mirrors_transition; [apply transition_ticks | done].
  - intros s0 h [Hm Hd]. split; [|done].
    eapply mirrors_transition; [apply transition_handler | done].
  - intros s0 b [Hm Hd]. split; [|done].
    eapply mirrors_transition; [apply transition_running | done].
  - intros s0 name ty value p session [Hm Hd]. split.
    + eapply mirrors_transition; [by apply transition_add | done].
    + cbn. rewrite !dom_insert_L. by rewrite Hd.
  - intros s0 id task Hid [Hm Hd]. split.
    + eapply mirrors_transition; [by apply transition_remove | done].
    + cbn. rewrite !dom_delete_L. by rewrite Hd.
  - intros s0 id task t Hid Ht [Hm Hd]. split.
    + eapply mirrors_transition; [by eapply transition_dispatch | done].
    + cbn. destruct (Hm _ _ Hid) as (t' & Ht' & Hid' & Hrow).
      rewrite dom_insert_lookup_L; [done|].
      replace t with t' by congruence. rewrite Hid'. eauto.
  - intros ck uu. split; [|done]. intros id task Hid. cbn in Hid.
    by rewrite lookup_empty in Hid.
Qed.

(** X10: when the store holds exactly the rows of the registered tasks (every
    registered id has the row of its task as it stands, and no other id has
    a row: so it is in the states reached with no dispatch in flight), the
    health check answers "healthy" with the number of registered tasks
    ([get_all_tasks] lists as many) as task count and the number of
    registered tasks that are enabled as enabled count. *)
Theorem X10_health_check_counts (s : state) :
  mirrors s →
  dom (db s) = dom (tasks s) →
  ∃ all,
    get_all_tasks s = (Ok all, s)
    ∧ check_scheduler_db true (db s)
      = Healthy (length all)
          (size (filter (λ kv, from_option enabled false (objects s !! kv.2) = true)
                        (tasks s))).
Proof.
  intros Hm Hd. eexists. split; [done|].
  unfold check_scheduler_db. f_equal.
  - rewrite length_fmap, length_map_to_list, <- !size_dom. by rewrite Hd.
  - rewrite <- !size_dom. f_equal. apply dom_filter_L. intros id.
    rewrite elem_of_dom. unfold is_Some.
    setoid_rewrite map_lookup_filter_Some. cbn. split.
    + intros (task & Hid & Hen).
      destruct (Hm _ _ Hid) as (t & Ht & _ & Hrow).
      exists (row_of t). split; [done|]. rewrite Ht in Hen. cbn in *.
      by rewrite Hen.
    + intros (row & Hrow & Hen).
      assert (id ∈ dom (tasks s)) as [task Hid]%elem_of_dom.
      { rewrite <- Hd. apply elem_of_dom. eauto. }
      destruct (Hm _ _ Hid) as (t & Ht & _ & Hrow').
      exists task. split; [done|]. rewrite Ht. cbn.
      replace row with (row_of t) in Hen by congruence. cbn in Hen.
      by destruct (enabled t).
Qed.

(** ** Building the scheduler on a database *)

Lemma load_row_undecodable id row s :
  decoded id row = None →
  ∃ msg s', load_row id row s = (Raise (ValueError msg), s')
    ∧ tasks s' = tasks s ∧ db s' = db s
    ∧ _running s' = _running s ∧ _task_handler s' = _task_handler s
    ∧ objects s `prefix_of` objects s'.
Proof.
  unfold decoded. intros Hdec.
  destruct s as [reg rn hd objs d ck ti uu dr ca].
  unfold load_row, ScheduledTask_init, mbind, M_bind, or_ValueError.
  destruct (ScheduleType_of_value _) as [ty|]; cbn in *;
    [|by eexists _, _].
  destruct (json_loads _) as [p|]; cbn in *; [|by eexists _, _].
  rewrite _calculate_next_run_eq. cbn.
  destruct (fromisoformat (col_next_run row)) as [next|]; cbn in *;
    [|eexists _, _; split_and!; try done; by apply prefix_app_r].
  destruct (truthy (col_last_run row)); cbn in *; [|done].
  destruct (fromisoformat (default EmptyString (col_last_run row))) as [last|];
    cbn in *; [done|].
  eexists _, _; split_and!; try done. cbn. rewrite alter_snoc.
  by apply prefix_app_r.
Qed.

Lemma load_rows_outcome (rows : list (string * Row)) (s : state) :
  ∃ r s', for_each rows (λ kv, load_row kv.1 kv.2) s = (r, s')
    ∧ db s' = db s ∧ _running s' = _running s
    ∧ _task_handler s' = _task_handler s
    ∧ objects s `prefix_of` objects s'
    ∧ (∀ id task, tasks s' !! id = Some task →
         tasks s !! id = Some task
         ∨ ∃ row t, (id, row) ∈ rows ∧ decoded id row = Some t
                    ∧ objects s' !! task = Some t)
    ∧ match r with
      | Ok _ => ∀ id row, (id, row) ∈ rows → is_Some (decoded id row)
      | Raise e =>
          (∃ msg, e = ValueError msg)
          ∧ ∃ id row, (id, row) ∈ rows ∧ decoded id row = None
      end.
Proof.
  revert s. induction rows as [|[id0 row0] rows IH]; intros s.
  - exists (Ok tt), s. split_and!; try done; [by left|].
    intros id row Hin. by apply elem_of_nil in Hin.
  - destruct (decoded id0 row0) as [t0|] eqn:Ht0.
    + destruct (IH (after_load_row t0 s))
        as (r & s' & Hrun & Hdb & Hrn & Hh & Hpre & Hreg & Hout).
      pose proof (task_id_decoded _ _ _ Ht0) as Hid0.
      exists r, s'. split_and!; try done.
      * cbn. erewrite bind_Ok; [exact Hrun|]. by apply load_row_eq.
      * etrans; [|exact Hpre]. cbn. by apply prefix_app_r.
      * intros id task Hid.
        destruct (Hreg _ _ Hid) as [Hold|(row & t & Hin & Hdec & Ht)].
        -- cbn in Hold. rewrite Hid0 in Hold.
           apply lookup_insert_Some in Hold as [[<- <-]|[_ Hold]]; [|by left].
           right. exists row0, t0. split_and!; [by left|done|].
           eapply prefix_lookup_Some; [|exact Hpre]. cbn. apply lookup_snoc.
        -- right. exists row, t. split_and!; [by right|done|done].
      * destruct r as [[]|e].
        -- intros id row [[= -> ->]|Hin]%elem_of_cons; [by eexists | by eapply Hout].
        -- destruct Hout as [Hmsg (id & row & Hin & Hdec)].
           split; [done|]. exists id, row. split; [by right|done].
    + destruct (load_row_undecodable _ _ s Ht0)
        as (msg & s' & Hrun & Hta & Hdb & Hrn & Hh & Hpre).
      exists (Raise (ValueError msg)), s'. split_and!; try done.
      * cbn. by erewrite bind_Raise.
      * intros id task Hid. left. by rewrite <- Hta.
      * by eexists.
      * exists id0, row0. split; [by left|done].
Qed.

Lemma decoded_enabled_row id row t :
  decoded id row = Some t → col_enabled row = 1 →
  enabled t = true ∧ status t = PENDING.
Proof.
  unfold decoded. intros Hdec Hen. rewrite Hen in Hdec.
  destruct (ScheduleType_of_value _); [|done]. cbn in Hdec.
  destruct (json_loads _); [|done]. cbn in Hdec.
  destruct (fromisoformat (col_next_run row)); [|done]. cbn in Hdec.
  destruct (truthy _).
  - destruct (fromisoformat _); [|done]. cbn in Hdec. by injection Hdec as <-.
  - cbn in Hdec. by injection Hdec as <-.
Qed.

Lemma elem_of_enabled_rows (table : gmap string Row) id row :
  (id, row) ∈ List.filter (λ kv, col_enabled kv.2 =? 1) (map_to_list table)
  ↔ table !! id = Some row ∧ col_enabled row = 1.
Proof.
  rewrite list_elem_of_In, filter_In, <- list_elem_of_In, elem_of_map_to_list.
  cbn. by rewrite Z.eqb_eq.
Qed.

Lemma Scheduler_init_eq s :
  Scheduler_init s
  = for_each (List.filter (λ kv, col_enabled kv.2 =? 1) (map_to_list (db s)))
      (λ kv, load_row kv.1 kv.2)
      (set_handler None (set_running false (set_tasks (λ _, ∅) s))).
Proof. done. Qed.

(** X12: the constructor never writes the store, leaves the scheduler
    stopped and without a handler, and registers only what enabled rows
    decode to, also when it raises half-way: every registered id is the key
    of an enabled row and leads to the task decoded from that row, which is
    enabled and pending.  When it returns normally, every enabled row is
    registered. *)
Theorem X12_init_registers_enabled_rows (s : state) :
  let s' := run Scheduler_init s in
  db s' = db s ∧ _running s' = false ∧ _task_handler s' = None
  ∧ (∀ id task, tasks s' !! id = Some task →
       ∃ row t, db s !! id = Some row ∧ col_enabled row = 1
                ∧ decoded id row = Some t ∧ objects s' !! task = Some t
                ∧ enabled t = true ∧ status t = PENDING)
  ∧ ((Scheduler_init s).1 = Ok tt →
     ∀ id row, db s !! id = Some row → col_enabled row = 1 →
       ∃ task t, tasks s' !! id = Some task ∧ decoded id row = Some t
                 ∧ objects s' !! task = Some t).
Proof.
  unfold run. rewrite Scheduler_init_eq.
  set (rows := List.filter _ _). set (s0 := set_handler _ _).
  destruct (load_rows_outcome rows s0)
    as (r & s' & Hrun & Hdb & Hrn & Hh & _ & Hreg & Hout).
  rewrite Hrun. cbn [fst snd]. split_and!; try done.
  - intros id task Hid.
    destruct (Hreg _ _ Hid) as [Hold|(row & t & Hin & Hdec & Ht)].
    { cbn in Hold. by rewrite lookup_empty in Hold. }
    apply elem_of_enabled_rows in Hin as [Hrow Hen].
    destruct (decoded_enabled_row _ _ _ Hdec Hen). by exists row, t.
  - intros -> id row Hrow Hen.
    destruct (load_rows_spec rows s0) as (s'' & Hrun' & _ & _ & Hload).
    { apply NoDup_fst_filter, NoDup_fst_map_to_list. }
    { exact Hout. }
    assert (s'' = s') as -> by congruence.
    assert ((id, row) ∈ rows) as Hin by by apply elem_of_enabled_rows.
    destruct (Hout _ _ Hin) as [t Ht].
    destruct (Hload _ _ _ Hin Ht) as (task & Hid & Hobj). by exists task, t.
Qed.

(** ** The loop, reminders and recurring tasks *)

(** X14: [start] on a scheduler that is running returns at once and changes
    nothing; on a stopped scheduler it sets the running flag and the loop
    wakes up once per iteration.  A loop whose flag [stop] has cleared makes
    no wake-up. *)
Theorem X14_start_and_stop (cycles : nat) (s : state) :
  start cycles s
  = (Ok tt, if _running s then s else wake_ups cycles (set_running true s))
  ∧ start_loop cycles (run stop s) = (Ok tt, set_running false s).
Proof.
  split.
  - unfold start, mbind, M_bind, gets. cbn.
    destruct (_running s) eqn:Hrun; [done|]. cbn.
    by rewrite start_loop_eq.
  - by destruct cycles.
Qed.

(** X13: a time text that neither [fromisoformat] nor the format [%H:%M]
    accepts makes [parse_time], and [add_reminder] with it, raise
    [ValueError] with the message "Invalid time format: " followed by the
    text; one clock reading apart the state is as before: no identifier is
    drawn, no task registered, no row written. *)
Theorem X13_unparsable_time (session message remind_at : string)
    (description : option string) (s : state) :
  fromisoformat remind_at = None →
  strptime_HM remind_at = None →
  let e := ValueError (String.append "Invalid time format: " remind_at) in
  parse_time remind_at s = (Raise e, set_ticks (S (ticks s)) s)
  ∧ add_reminder session message remind_at description s
    = (Raise e, set_ticks (S (ticks s)) s).
Proof.
  intros Hiso Hhm e.
  assert (parse_time remind_at s = (Raise e, set_ticks (S (ticks s)) s)) as Hparse.
  { rewrite parse_time_eq. unfold parsed_time. by rewrite Hiso, Hhm. }
  split; [done|]. unfold add_reminder. by erewrite bind_Raise.
Qed.

(** X15: when [int] reads back the text [str] writes for the interval and
    the first run is representable (the interval has at most 999999999 days
    and the clock reading plus the interval lies in the years 1..9999),
    [add_recurring_task] registers an enabled interval task of the given
    name, payload and session that has never run, first due that many
    minutes after the clock reading of the call, and saves its row.  When
    the first run is not representable it raises [OverflowError] and
    registers and saves nothing. *)
Theorem X15_add_recurring_task (session nm : string) (minutes : Z)
    (p : payload_t) (s : state) :
  int_of_str (str_of_int minutes) = Some minutes →
  if Ranged.representable (clock s (ticks s)) (timedelta.minutes minutes) then
    ∃ id task t s',
      Ranged.add_recurring_task session nm minutes p s = (Ok id, s')
      ∧ tasks s' !! id = Some task ∧ objects s' !! task = Some t
      ∧ db s' !! id = Some (row_of t)
      ∧ task_id t = id ∧ name t = nm ∧ schedule_type t = INTERVAL
      ∧ payload t = p ∧ session_id t = Some session
      ∧ enabled t = true ∧ status t = PENDING
      ∧ last_run t = None ∧ run_count t = 0
      ∧ next_run t = clock s (ticks s) + timedelta.minutes minutes
  else
    ∃ s',
      Ranged.add_recurring_task session nm minutes p s = (Raise OverflowError, s')
      ∧ tasks s' = tasks s ∧ objects s' = objects s ∧ db s' = db s.
Proof.
  intros Hint. unfold Ranged.add_recurring_task. rewrite ranged_add_task_eq.
  unfold Ranged.next_run_at, Ranged.plus. rewrite Hint.
  destruct (Ranged.representable _ _).
  - eexists _, (length (objects s)), _, _. split; [done|].
    cbn. rewrite !lookup_insert_eq, lookup_snoc. by split_and!.
  - by eexists.
Qed.

(** ** The /remind command and the tasks of a session *)

Lemma elem_of_tasks_for_session session s task :
  task ∈ (List.filter
            (λ l, from_option (λ t, bool_decide (session_id t = Some session)) false
                              (objects s !! l))
            (map_to_list (tasks s)).*2)
  ↔ (∃ id, tasks s !! id = Some task)
    ∧ ∃ t, objects s !! task = Some t ∧ session_id t = Some session.
Proof.
  rewrite list_elem_of_In, filter_In, <- list_elem_of_In.
  rewrite list_elem_of_fmap. split.
  - intros [((id & l) & -> & Hin) Hs]. apply elem_of_map_to_list in Hin.
    split; [by exists id|]. cbn in *.
    destruct (objects s !! l) as [t|]; [|done]. exists t.
    split; [done|]. cbn in Hs. by apply bool_decide_eq_true in Hs.
  - intros [[id Hid] (t & Ht & Hs)]. split.
    + exists (id, task). split; [done|]. by apply elem_of_map_to_list.
    + rewrite Ht. cbn. by apply bool_decide_eq_true.
Qed.

(** X18: after an [add_task] that returns, [get_tasks_for_session] lists the
    new task for a session exactly when the task was added for that session
    (a task added without a session is listed for none); whatever it lists is
    registered and belongs to the session asked for. *)
Theorem X18_tasks_of_a_session (nm : string) (ty : ScheduleType) (value : string)
    (p : payload_t) (session : option string) (asked : string)
    (next : datetime) (s : state) :
  (Ranged._calculate_next_run ty value s).1 = Ok next →
  ∃ id task listed s',
    Ranged.add_task nm ty value p session s = (Ok id, s')
    ∧ tasks s' !! id = Some task
    ∧ get_tasks_for_session asked s' = (Ok listed, s')
    ∧ (task ∈ listed ↔ session = Some asked)
    ∧ ∀ l, l ∈ listed →
        ∃ id' t, tasks s' !! id' = Some l ∧ objects s' !! l = Some t
                 ∧ session_id t = Some asked.
Proof.
  intros Hnext. rewrite ranged_calculator_eq in Hnext. cbn in Hnext.
  rewrite ranged_add_task_eq, Hnext. eexists _, (length (objects s)), _, _.
  split; [done|]. split; [cbn; by rewrite lookup_insert_eq|].
  split; [done|]. split.
  - rewrite elem_of_tasks_for_session. cbn. rewrite lookup_snoc. split.
    + by intros [_ (t & [= <-] & Hs)].
    + intros ->. split; [|by eexists]. eexists. by rewrite lookup_insert_eq.
  - intros l [[id' Hid'] (t & Ht & Hs)]%elem_of_tasks_for_session. by exists id', t.
Qed.

Lemma _handle_command_remind_eq session time_str word words s :
  _handle_command_remind true session (time_str :: word :: words) s
  = match add_reminder session (join_words (word :: words)) time_str None s with
    | (Ok _, s') =>
        (Ok (String.append "✅ Reminder set for "
               (String.append time_str
                  (String.append ": " (join_words (word :: words))))), s')
    | (Raise (ValueError msg), s') =>
        (Ok (String.append "⚠️ Invalid time format: " msg), s')
    | (Raise e, s') => (Raise e, s')
    end.
Proof.
  unfold _handle_command_remind, try_except_ValueError_as, mbind, M_bind.
  cbn [length Nat.leb andb head tail default].
  by destruct (add_reminder _ _ _ _ s) as [[id|[msg|msg]] s'].
Qed.

(** X16: the /remind command with a time text that no parser accepts answers
    the warning, in which the words "Invalid time format" stand twice, and
    adds no reminder: one clock reading apart the state is as before.  With
    fewer than two words after the command, or without a scheduler, it
    answers the usage text and touches nothing. *)
Theorem X16_remind_rejects (session time_str word : string) (words : list string)
    (s : state) :
  fromisoformat time_str = None →
  strptime_HM time_str = None →
  _handle_command_remind true session (time_str :: word :: words) s
  = (Ok (String.append "⚠️ Invalid time format: "
           (String.append "Invalid time format: " time_str)),
     set_ticks (S (ticks s)) s)
  ∧ ∀ scheduler args,
      (length args < 2)%nat ∨ scheduler = false →
      _handle_command_remind scheduler session args s = (Ok remind_usage, s).
Proof.
  intros Hiso Hhm. split.
  - rewrite _handle_command_remind_eq.
    unfold add_reminder. erewrite bind_Raise; last first.
    { rewrite parse_time_eq. unfold parsed_time. rewrite Hiso, Hhm. reflexivity. }
    done.
  - intros scheduler args Hcase. unfold _handle_command_remind.
    destruct Hcase as [Hlen| ->].
    + apply Nat.leb_gt in Hlen. by rewrite Hlen.
    + by rewrite andb_false_r.
Qed.

(** X17: the /remind command with a time text of the form HH:MM (one that
    [fromisoformat] refuses and the format [%H:%M] accepts) answers the
    confirmation, which quotes the time text and the words joined by single
    spaces, and registers an enabled one-shot task named "Reminder" for the
    session, whose payload is a reminder with that message;
    [get_tasks_for_session] lists it for the session. *)
Theorem X17_remind_registers (session time_str word : string) (words : list string)
    (hour minute : Z) (s : state) :
  fromisoformat time_str = None →
  strptime_HM time_str = Some (hour, minute) →
  let message := join_words (word :: words) in
  ∃ s' id task t listed,
    _handle_command_remind true session (time_str :: word :: words) s
    = (Ok (String.append "✅ Reminder set for "
             (String.append time_str (String.append ": " message))), s')
    ∧ tasks s' !! id = Some task ∧ objects s' !! task = Some t
    ∧ db s' !! id = Some (row_of t)
    ∧ name t = "Reminder" ∧ schedule_type t = ONCE
    ∧ payload t = [("type", JStr "reminder"); ("message", JStr message)]
    ∧ session_id t = Some session ∧ enabled t = true
    ∧ get_tasks_for_session session s' = (Ok listed, s') ∧ task ∈ listed.
Proof.
  intros Hiso Hhm message. rewrite _handle_command_remind_eq.
  assert (parse_time time_str s
          = (Ok (combine (date (clock s (ticks s))) (hour, minute)),
             set_ticks (S (ticks s)) s)) as Hparse.
  { rewrite parse_time_eq. unfold parsed_time. by rewrite Hiso, Hhm. }
  rewrite (add_reminder_eq _ _ _ _ _ _ _ Hparse). fold message.
  eexists _, _, (length (objects s)), _, _. split; [done|].
  cbn [tasks objects db after_add_task set_ticks task_id created].
  rewrite !lookup_insert_eq, lookup_snoc. split_and!; try done.
  apply elem_of_tasks_for_session. cbn. rewrite lookup_snoc. split.
  - eexists. by rewrite lookup_insert_eq.
  - by eexists.
Qed.

(** ** Listings, restarts and the hourly default *)

Lemma dispatch_all_sessions due s :
  Forall (λ task, is_Some (objects s !! task)) due →
  ∀ l, session_id <$> objects (dispatch_all due s) !! l
       = session_id <$> objects s !! l.
Proof.
  intros Hall.
  apply (dispatch_all_ind
           (λ s', ∀ l, session_id <$> objects s' !! l = session_id <$> objects s !! l));
    [done|done|].
  intros s1 task t HP Hin Ht l. rewrite <- HP. cbn.
  destruct (decide (l = task)) as [->|Hne].
  - rewrite list_lookup_insert_eq by (by eapply lookup_lt_Some). rewrite Ht. cbn.
    destruct (identity_dispatched s1 t) as (_ & _ & _ & _ & _ & -> & _). done.
  - by rewrite list_lookup_insert_ne.
Qed.

(** X21: a wake-up changes neither what [get_all_tasks] lists nor what
    [get_tasks_for_session] lists for any session: a one-shot task that has
    fired stays listed. *)
Theorem X21_wake_up_keeps_listings (session : string) (s : state) :
  ∃ s', _check_and_run_tasks s = (Ok tt, s')
    ∧ (get_all_tasks s').1 = (get_all_tasks s).1
    ∧ (get_tasks_for_session session s').1 = (get_tasks_for_session session s).1.
Proof.
  eexists. split; [apply _check_and_run_tasks_eq|].
  set (due := tasks_to_run _ s). set (s0 := set_ticks _ s).
  assert (Forall (λ task, is_Some (objects s0 !! task)) due) as Hall
    by exact (tasks_to_run_Forall _ s).
  destruct (dispatch_all_frame _ _ Hall) as (Hta & _).
  pose proof (dispatch_all_sessions _ _ Hall) as Hs.
  unfold get_all_tasks, get_tasks_for_session, gets. cbn [fst]. rewrite Hta.
  split; [done|]. f_equal. apply filter_ext. intros l.
  specialize (Hs l). change (objects s0) with (objects s) in Hs.
  destruct (objects (dispatch_all due s0) !! l) as [t'|],
    (objects s !! l) as [t|]; cbn in *; try done.
  by injection Hs as ->.
Qed.

(** An id without an enabled row is not registered by the constructor. *)
Lemma not_reloaded id s :
  (∀ row, db s !! id = Some row → col_enabled row ≠ 1) →
  tasks (run Scheduler_init s) !! id = None ∧ db (run Scheduler_init s) = db s.
Proof.
  intros Hrow. unfold run. rewrite Scheduler_init_eq.
  match goal with
  | |- context [for_each ?rows ?body ?s0] =>
      destruct (load_rows_outcome rows s0) as (r & s' & -> & Hdb & _ & _ & _ & Hreg & _)
  end.
  cbn [snd]. split; [|done].
  destruct (tasks s' !! id) as [task|] eqn:Hid; [|done].
  destruct (Hreg _ _ Hid) as [Hold|(row & t & Hin & _)].
  - cbn in Hold. by rewrite lookup_empty in Hold.
  - apply elem_of_enabled_rows in Hin as [Hin Hen]. by destruct (Hrow row Hin).
Qed.

(** X22: the dispatch of a one-shot task leaves its row in the store with
    [enabled = 0]; a scheduler built again on that store keeps the row and
    does not register the id. *)
Theorem X22_fired_once_is_not_reloaded (task : loc) (t : ScheduledTask) (s : state) :
  objects s !! task = Some t →
  schedule_type t = ONCE →
  ∃ s' row,
    _execute_task task s = (Ok tt, s')
    ∧ db s' !! task_id t = Some row ∧ col_enabled row = 0
    ∧ tasks (run Scheduler_init s') !! task_id t = None
    ∧ db (run Scheduler_init s') !! task_id t = Some row.
Proof.
  intros Ht Hty. exists (after_dispatch task t s), (row_of (dispatched s t)).
  split; [by apply _execute_task_eq|].
  assert (db (after_dispatch task t s) !! task_id t = Some (row_of (dispatched s t)))
    as Hrow by (cbn; by rewrite lookup_insert_eq).
  assert (col_enabled (row_of (dispatched s t)) = 0) as Hen
    by (cbn; by rewrite enabled_dispatched_ONCE).
  split; [done|]. split; [done|].
  destruct (not_reloaded (task_id t) (after_dispatch task t s)) as [Hnone Hdb].
  { intros row. rewrite Hrow. intros [= <-]. by rewrite Hen. }
  split; [done|]. by rewrite Hdb.
Qed.

(** X23: a dispatch reschedules a cron task, and an interval task whose value
    is no integer, one hour after the clock reading taken for the
    recomputation, whatever the schedule value and whatever the handler does;
    the task stays as enabled as it was. *)
Theorem X23_hourly_default (task : loc) (t : ScheduledTask) (s : state) :
  objects s !! task = Some t →
  schedule_type t = CRON
  ∨ (schedule_type t = INTERVAL ∧ int_of_str (schedule_value t) = None) →
  ∃ s' t',
    _execute_task task s = (Ok tt, s') ∧ objects s' !! task = Some t'
    ∧ next_run t' = clock s (pred (ticks s')) + timedelta.hours 1
    ∧ enabled t' = enabled t.
Proof.
  intros Ht Hcase. exists (after_dispatch task t s), (dispatched s t).
  split; [by apply _execute_task_eq|]. split; [by apply lookup_after_dispatch|].
  destruct (identity_dispatched s t) as (_ & _ & _ & _ & _ & _ & Hen & _).
  assert (Hv : schedule_value (recorded s (with_status RUNNING t)) = schedule_value t).
  { unfold recorded. by destruct (handler_outcome _ _). }
  split.
  - unfold dispatched, rescheduled. rewrite schedule_type_recorded.
    cbn -[timedelta.hours].
    destruct Hcase as [Hty|[Hty Hint]]; rewrite Hty; cbn -[timedelta.hours];
      unfold next_run_at; [done|]. by rewrite Hv, Hint.
  - apply Hen. destruct Hcase as [->|[-> _]]; done.
Qed.

(** ** The handler, cancelled tasks and the life of a registered task *)


(** X20: a task removed with [remove_task] is never selected by a wake-up
    again, whatever is called afterwards and however often the scheduler is
    built again on its database; a scheduler built on the store the removal
    leaves does not register the id. *)
Theorem X20_removed_task_never_due (id : string) (task : loc) (t : ScheduledTask)
    (s : state) :
  tasks s !! id = Some task →
  objects s !! task = Some t →
  ∃ s', remove_task id s = (Ok true, s')
    ∧ (∀ (later : list event) (now : datetime),
         task ∉ tasks_to_run now (foldl (λ s e, occur e s) s' later))
    ∧ tasks (run Scheduler_init s') !! id = None.
Proof.
  intros Hid Ht. exists (after_remove_task id task s).
  split; [by rewrite remove_task_eq, Hid|]. split.
  - intros later now. apply retired_not_due, retired_events.
    eexists. split; [by apply lookup_after_remove_task | done].
  - apply not_reloaded. intros row. cbn. by rewrite lookup_delete_eq.
Qed.

(** ** The life of a registered task, dispatches in flight included *)

Lemma in_order_running t : in_order t → in_order (with_status RUNNING t).
Proof. intros (Hst & Hpos & Hpend & Hdone & Hen). by split_and!. Qed.

Lemma in_order_finished outcome s t : in_order t → in_order (finished outcome s t).
Proof.
  intros (Hst & Hpos & Hpend & Hdone & Hen).
  unfold in_order, finished, rescheduled, settled.
  destruct outcome as [[]|e], (schedule_type t) eqn:Hty;
    split_and!; cbn; rewrite ?Hty; cbn; try done; try lia;
    try (intros Hne; by (apply Hen || destruct Hne)).
Qed.

Lemma in_order_rescheduled now t : in_order t → in_order (rescheduled now t).
Proof.
  intros (Hst & Hpos & Hpend & Hdone & Hen).
  unfold in_order, rescheduled.
  destruct (schedule_type t) eqn:Hty;
    split_and!; cbn; rewrite ?Hty; cbn; try done;
    try (intros Hne; by (apply Hen || destruct Hne)).
Qed.

Lemma in_order_dispatched s t : in_order t → in_order (dispatched s t).
Proof.
  intros (Hst & Hpos & Hpend & Hdone & Hen).
  unfold in_order, dispatched, rescheduled, recorded.
  destruct (handler_outcome s _) as [[]|e], (schedule_type t) eqn:Hty;
    split_and!; cbn; rewrite ?Hty; cbn; try done; try lia;
    try (intros Hne; by (apply Hen || destruct Hne)).
Qed.

(** An object that is replaced by one of the same id, in order if the old
    one was, leaves the scheduler orderly. *)
Lemma orderly_update task t t' s s' :
  tasks s' = tasks s →
  objects s' = <[task := t']> (objects s) →
  objects s !! task = Some t →
  task_id t' = task_id t →
  (in_order t → in_order t') →
  orderly s → orderly s'.
Proof.
  intros Hta Hobj Ht Hid Hord [Hn Hl].
  pose proof (lookup_lt_Some _ _ _ Ht) as Hlt. split.
  - intros id l Hl'. rewrite Hta in Hl'. destruct (Hn _ _ Hl') as (tl & Htl & Hidl).
    rewrite Hobj. destruct (decide (l = task)) as [->|Hne].
    + exists t'. rewrite list_lookup_insert_eq by done. split; [done|]. congruence.
    + exists tl. by rewrite list_lookup_insert_ne.
  - intros id l tl Hl'. rewrite Hta in Hl'. rewrite Hobj.
    destruct (decide (l = task)) as [->|Hne].
    + rewrite list_lookup_insert_eq by done. intros [= <-].
      apply Hord. by eapply Hl.
    + rewrite list_lookup_insert_ne by done. by eapply Hl.
Qed.

Lemma orderly_same s s' :
  tasks s' = tasks s → objects s' = objects s → orderly s → orderly s'.
Proof. intros Hta Hobj [Hn Hl]. split; unfold named; rewrite Hta, Hobj; done. Qed.

Lemma orderly_add s name ty value p session :
  orderly s → orderly (after_add_task (created s name ty value p session) s).
Proof.
  intros [Hn Hl]. split.
  - intros id l. cbn. intros [[<- <-]|[Hne Hid]]%lookup_insert_Some.
    + eexists. by rewrite lookup_snoc.
    + destruct (Hn _ _ Hid) as (t & Ht & Hidt). exists t.
      split; [|done]. by apply lookup_app_l_Some.
  - intros id l t. cbn. intros [[<- <-]|[Hne Hid]]%lookup_insert_Some.
    + rewrite lookup_snoc. intros [= <-]. unfold in_order. cbn. by split_and!.
    + destruct (Hn _ _ Hid) as (t' & Ht' & _).
      rewrite lookup_app_l by (by eapply lookup_lt_Some). by eapply Hl.
Qed.

Lemma orderly_remove s id task :
  tasks s !! id = Some task → orderly s → orderly (after_remove_task id task s).
Proof.
  intros Hid [Hn Hl].
  assert (∀ id' l, id' ≠ id → tasks s !! id' = Some l → l ≠ task) as Hother.
  { intros id' l Hne Hid' ->.
    destruct (Hn _ _ Hid) as (t0 & Ht0 & Hid0).
    destruct (Hn _ _ Hid') as (t1 & Ht1 & Hid1). congruence. }
  split.
  - intros id' l. cbn. intros [Hne Hid']%lookup_delete_Some.
    destruct (Hn _ _ Hid') as (t & Ht & Hidt). exists t. split; [|done].
    rewrite !list_lookup_alter_ne; [done|..]; intros ->; by eapply Hother.
  - intros id' l t. cbn. intros [Hne Hid']%lookup_delete_Some.
    rewrite !list_lookup_alter_ne by (intros ->; by eapply Hother).
    by eapply Hl.
Qed.

Lemma orderly_perform c s : orderly s → orderly (perform c s).
Proof.
  apply invariant_perform.
  - intros s0 n. by apply orderly_same.
  - intros s0 h. by apply orderly_same.
  - intros s0 b. by apply orderly_same.
  - intros s0 name ty value p session. apply orderly_add.
  - intros s0 id task. apply orderly_remove.
  - intros s0 id task t _ Ht.
    apply (orderly_update task t (dispatched s0 t)); try done.
    + destruct (identity_dispatched s0 t) as (-> & _). done.
    + apply in_order_dispatched.
Qed.

Lemma orderly_begin task s : orderly s → orderly (begin_dispatch task s).2.
Proof.
  intros Hord.
  destruct (begin_dispatch_state task s _ eq_refl) as (Hobj & Hta & _).
  destruct (objects s !! task) as [t|] eqn:Ht.
  - apply (orderly_update task t (with_status RUNNING t) s); try done.
    + by rewrite Hobj, (alter_present _ _ _ _ Ht).
    + apply in_order_running.
  - apply (orderly_same s); [done| |done]. by rewrite Hobj, alter_absent.
Qed.

Lemma orderly_finish task outcome s :
  orderly s → orderly (run (finish_dispatch task outcome) s).
Proof.
  intros Hord. destruct (objects s !! task) as [t|] eqn:Ht.
  - unfold run. rewrite (finish_dispatch_eq _ _ _ _ Ht).
    apply (orderly_update task t (finished outcome s t) s); try done.
    + unfold finished. by rewrite task_id_rescheduled, task_id_settled.
    + apply in_order_finished.
  - apply (orderly_same s); [|by apply finish_dispatch_absent|done].
    destruct s as [reg rn hd objs d ck ti uu dr ca]; cbn in Ht.
    unfold run, finish_dispatch, try_finally, try_except_Exception, update_next_run,
      read, assign, modify, mbind, M_bind, datetime_now, mret, M_ret, raise,
      set_objects, set_ticks; cbn.
    destruct outcome as [[]|e]; cbn; rewrite !(alter_absent _ _ _ Ht), Ht; done.
Qed.

Lemma orderly_cancel task s :
  orderly s → orderly (run (cancel_dispatch task) s).
Proof.
  intros Hord. destruct (objects s !! task) as [t|] eqn:Ht.
  - unfold run. rewrite (cancel_dispatch_eq _ _ _ Ht).
    apply (orderly_update task t (rescheduled (clock s (ticks s)) t) s); try done.
    + apply task_id_rescheduled.
    + apply in_order_rescheduled.
  - destruct (cancel_dispatch_absent _ _ Ht) as [Hobj Hta].
    by apply (orderly_same s).
Qed.

Lemma orderly_live w : live w → orderly (scheduler w).
Proof.
  induction 1 as [ck uu|w a _ IH Ha].
  - rewrite Scheduler_init_blank. split; intros id task; cbn; by rewrite lookup_empty.
  - destruct a as [|i|i|i|c|]; cbn; [| | | | |done].
    + destruct (_running (scheduler w)); [|done].
      unfold select_due, datetime_now, gets, mbind, M_bind. cbn.
      by apply (orderly_same (scheduler w)).
    + destruct (jobs w !! i) as [[task|task outcome]|]; try done.
      pose proof (orderly_begin task _ IH) as Hb.
      by destruct (begin_dispatch task (scheduler w)) as [[outcome|e] s'].
    + destruct (jobs w !! i) as [[task|task outcome]|]; try done.
      cbn. by apply orderly_finish.
    + destruct (jobs w !! i) as [[task|task outcome]|]; try done.
      cbn. by apply orderly_cancel.
    + by apply orderly_perform.
Qed.

(** X5: in every world the event loop reaches from a scheduler built on an
    empty database (polls, dispatches started, ended and cancelled in any
    order, public calls between them; no restart), a registered task is not
    cancelled; its run count is not negative; while it is pending it has
    never run; once it is completed it has run at least once; a recurring
    task is enabled. *)
Theorem X5_life_of_a_registered_task (w : world) (id : string) (task : loc)
    (t : ScheduledTask) :
  live w →
  tasks (scheduler w) !! id = Some task →
  objects (scheduler w) !! task = Some t →
  status t ≠ CANCELLED
  ∧ 0 ≤ run_count t
  ∧ (status t = PENDING → run_count t = 0 ∧ last_run t = None)
  ∧ (status t = COMPLETED → 1 ≤ run_count t)
  ∧ (schedule_type t ≠ ONCE → enabled t = true).
Proof.
  intros [_ Hl]%orderly_live Hid Ht. exact (Hl _ _ _ Hid Ht).
Qed.

(** ** Every registered task has a row, dispatches in flight included *)

Lemma stored_grows s s' :
  tasks s' = tasks s → (∀ id, is_Some (db s !! id) → is_Some (db s' !! id)) →
  stored s → stored s'.
Proof. intros Hta Hdb Hst id task Hid. rewrite Hta in Hid. eauto. Qed.

Lemma is_Some_insert_row (d : gmap string Row) id id' row :
  is_Some (d !! id) → is_Some (<[id' := row]> d !! id).
Proof.
  intros Hid. destruct (decide (id' = id)) as [->|Hne].
  - rewrite lookup_insert_eq. eauto.
  - by rewrite lookup_insert_ne.
Qed.

Lemma stored_perform c s : stored s → stored (perform c s).
Proof.
  apply invariant_perform.
  - intros s0 n. by apply stored_grows.
  - intros s0 h. by apply stored_grows.
  - intros s0 b. by apply stored_grows.
  - intros s0 name ty value p session Hst id task. cbn.
    destruct (decide (uuids s0 (drawn s0) = id)) as [->|Hne].
    + rewrite !lookup_insert_eq. eauto.
    + rewrite !lookup_insert_ne by done. apply Hst.
  - intros s0 id task _ Hst id' task'. cbn.
    destruct (decide (id = id')) as [->|Hne].
    + by rewrite lookup_delete_eq.
    + rewrite !lookup_delete_ne by done. apply Hst.
  - intros s0 id task t _ _. apply stored_grows; [done|].
    intros id'. cbn. apply is_Some_insert_row.
Qed.

Lemma stored_begin task s : stored s → stored (begin_dispatch task s).2.
Proof.
  destruct (begin_dispatch_state task s _ eq_refl) as (_ & Hta & Hdb & _).
  apply stored_grows; [done|]. by rewrite Hdb.
Qed.

Lemma finish_dispatch_absent_store task outcome s :
  objects s !! task = None →
  tasks (run (finish_dispatch task outcome) s) = tasks s
  ∧ db (run (finish_dispatch task outcome) s) = db s.
Proof.
  intros Ht.
  destruct s as [reg rn hd objs d ck ti uu dr ca]; cbn in Ht.
  unfold run, finish_dispatch, try_finally, try_except_Exception, update_next_run,
    read, assign, modify, mbind, M_bind, datetime_now, mret, M_ret, raise,
    set_objects, set_ticks; cbn.
  destruct outcome as [[]|e]; cbn; rewrite !(alter_absent _ _ _ Ht), Ht; done.
Qed.

Lemma cancel_dispatch_absent_store task s :
  objects s !! task = None →
  db (run (cancel_dispatch task) s) = db s.
Proof.
  intros Ht.
  destruct s as [reg rn hd objs d ck ti uu dr ca]; cbn in Ht.
  unfold run, cancel_dispatch, update_next_run, read, mbind, M_bind; cbn.
  by rewrite Ht.
Qed.

Lemma stored_finish task outcome s :
  stored s → stored (run (finish_dispatch task outcome) s).
Proof.
  destruct (objects s !! task) as [t|] eqn:Ht.
  - unfold run. rewrite (finish_dispatch_eq _ _ _ _ Ht).
    apply stored_grows; [done|]. intros id. cbn. apply is_Some_insert_row.
  - destruct (finish_dispatch_absent_store task outcome s Ht) as [Hta Hdb].
    apply stored_grows; [done|]. by rewrite Hdb.
Qed.

Lemma stored_cancel task s : stored s → stored (run (cancel_dispatch task) s).
Proof.
  destruct (objects s !! task) as [t|] eqn:Ht.
  - unfold run. rewrite (cancel_dispatch_eq _ _ _ Ht).
    apply stored_grows; [done|]. intros id. cbn. apply is_Some_insert_row.
  - destruct (cancel_dispatch_absent _ _ Ht) as [_ Hta].
    apply stored_grows; [done|]. by rewrite (cancel_dispatch_absent_store _ _ Ht).
Qed.

Lemma stored_live w : live w → stored (scheduler w).
Proof.
  induction 1 as [ck uu|w a _ IH Ha].
  - rewrite Scheduler_init_blank. intros id task. cbn. by rewrite lookup_empty.
  - destruct a as [|i|i|i|c|]; cbn; [| | | | |done].
    + destruct (_running (scheduler w)); [|done].
      unfold select_due, datetime_now, gets, mbind, M_bind. cbn.
      by apply (stored_grows (scheduler w)).
    + destruct (jobs w !! i) as [[task|task outcome]|]; try done.
      pose proof (stored_begin task _ IH) as Hb.
      by destruct (begin_dispatch task (scheduler w)) as [[outcome|e] s'].
    + destruct (jobs w !! i) as [[task|task outcome]|]; try done.
      cbn. by apply stored_finish.
    + destruct (jobs w !! i) as [[task|task outcome]|]; try done.
      cbn. by apply stored_cancel.
    + by apply stored_perform.
Qed.

(** X9: in every state the event loop reaches from a scheduler built on an
    empty database (polls, dispatches started, ended and cancelled in any
    order, public calls between them; no restart), every registered id has a
    row in the store and leads to a task object of that id. *)
Theorem X9_registered_tasks_have_rows (w : world) (id : string) (task : loc) :
  live w →
  tasks (scheduler w) !! id = Some task →
  is_Some (db (scheduler w) !! id)
  ∧ ∃ t, objects (scheduler w) !! task = Some t ∧ task_id t = id.
Proof.
  intros Hlive Hid. split.
  - by eapply stored_live.
  - destruct (orderly_live w Hlive) as [Hnamed _]. by apply Hnamed.
Qed.
End Coverage.

(** * The further properties on the concrete runs *)

Section MoreRuns.
Import Scenario Cases.
#[local] Existing Instance Ref.lib.

Lemma report_done_retired : objects once_retired !! 0%nat = Some report_done.
Proof. vm_compute. reflexivity. Qed.

(** On the broken database the constructor raises and registers nothing. *)
Lemma Scheduler_init_broken :
  (Scheduler_init broken).1 = Raise (ValueError "not a valid ScheduleType")
  ∧ tasks (run Scheduler_init broken) = ∅.
Proof. split; vm_compute; reflexivity. Qed.

(** Witness of X1: the one-shot task is removed. *)
Lemma X1_witness :
  ∃ s', remove_task "task-0" once_added = (Ok true, s')
    ∧ tasks s' !! "task-0" = None ∧ db s' !! "task-0" = None
    ∧ objects s' !! 0%nat = Some (with_status CANCELLED (with_enabled false report))
    ∧ (∀ id', id' ≠ "task-0" →
         tasks s' !! id' = tasks once_added !! id'
         ∧ db s' !! id' = db once_added !! id')
    ∧ (∀ l, l ≠ 0%nat → objects s' !! l = objects once_added !! l)
    ∧ remove_task "task-0" s' = (Ok false, s').
Proof.
  apply (X1_remove_task "task-0" 0%nat report once_added).
  - vm_compute. reflexivity.
  - vm_compute. reflexivity.
Defined.

(** Witness of X3: a task is added to the fresh scheduler and removed. *)
Lemma X3_witness :
  ∃ s', (id ← Ranged.add_task "report" ONCE "2026-02-16T11:00:30" [] None;
         remove_task id) (boot ticking) = (Ok true, s')
    ∧ tasks s' = tasks (boot ticking) ∧ db s' = db (boot ticking)
    ∧ ∀ l t, objects (boot ticking) !! l = Some t → objects s' !! l = Some t.
Proof.
  apply (X3_add_then_remove "report" ONCE "2026-02-16T11:00:30" [] None
           (T0 + timedelta.seconds 30) (boot ticking)).
  - vm_compute. reflexivity.
  - vm_compute. reflexivity.
  - vm_compute. reflexivity.
Defined.


(** Witness of X8: the one-shot task that has run once. *)
Lemma X8_witness :
  0 ≤ run_count report_done
  ∧ (last_run report_done = None ↔ run_count report_done = 0).
Proof.
  apply (X8_counters_agree once_retired 0%nat report_done).
  - exact reachable_once_retired.
  - exact report_done_retired.
Defined.

(** Witness of X10: one task, none enabled, once the one-shot task has run. *)
Lemma X10_witness :
  ∃ all,
    get_all_tasks once_retired = (Ok all, once_retired)
    ∧ check_scheduler_db true (db once_retired)
      = Healthy (length all)
          (size (filter (λ kv, from_option enabled false
                                 (objects once_retired !! kv.2) = true)
                        (tasks once_retired))).
Proof.
  apply (X10_health_check_counts once_retired).
  - exact (proj1 (store_registry_reachable once_retired reachable_once_retired)).
  - exact (proj2 (store_registry_reachable once_retired reachable_once_retired)).
Defined.

(** Witness of X13: a time text that is no time. *)
Lemma X13_witness :
  let e := ValueError "Invalid time format: test_time" in
  parse_time "test_time" (boot ticking)
  = (Raise e, set_ticks 1 (boot ticking))
  ∧ add_reminder "session" "Test reminder" "test_time" None (boot ticking)
    = (Raise e, set_ticks 1 (boot ticking)).
Proof.
  apply (X13_unparsable_time "session" "Test reminder" "test_time" None (boot ticking)).
  - vm_compute. reflexivity.
  - vm_compute. reflexivity.
Defined.

(** Witness of X15: a task for every 90 minutes, added at 11:00:00. *)
Lemma X15_witness :
  Ranged.representable T0 (timedelta.minutes 90) = true
  ∧ if Ranged.representable (clock (boot ticking) (ticks (boot ticking)))
         (timedelta.minutes 90)
    then
      ∃ id task t s',
        Ranged.add_recurring_task "session" "tick" 90 [] (boot ticking) = (Ok id, s')
        ∧ tasks s' !! id = Some task ∧ objects s' !! task = Some t
        ∧ db s' !! id = Some (row_of t)
        ∧ task_id t = id ∧ name t = "tick" ∧ schedule_type t = INTERVAL
        ∧ payload t = [] ∧ session_id t = Some "session"
        ∧ enabled t = true ∧ status t = PENDING
        ∧ last_run t = None ∧ run_count t = 0
        ∧ next_run t
          = clock (boot ticking) (ticks (boot ticking)) + timedelta.minutes 90
    else
      ∃ s',
        Ranged.add_recurring_task "session" "tick" 90 [] (boot ticking)
        = (Raise OverflowError, s')
        ∧ tasks s' = tasks (boot ticking) ∧ objects s' = objects (boot ticking)
        ∧ db s' = db (boot ticking).
Proof.
  split; [vm_compute; reflexivity|].
  apply (X15_add_recurring_task "session" "tick" 90 [] (boot ticking)).
  vm_compute. reflexivity.
Defined.

(** Witness of X16: the command "/remind soon Check emails". *)
Lemma X16_witness :
  _handle_command_remind true "session" ["soon"; "Check"; "emails"] (boot ticking)
  = (Ok (String.append "⚠️ Invalid time format: " "Invalid time format: soon"),
     set_ticks 1 (boot ticking))
  ∧ ∀ scheduler args,
      (length args < 2)%nat ∨ scheduler = false →
      _handle_command_remind scheduler "session" args (boot ticking)
      = (Ok remind_usage, boot ticking).
Proof.
  apply (X16_remind_rejects "session" "soon" "Check" ["emails"] (boot ticking)).
  - vm_compute. reflexivity.
  - vm_compute. reflexivity.
Defined.

(** Witness of X17: the command "/remind 12:30 Check emails" at 11:00:00. *)
Lemma X17_witness :
  ∃ s' id task t listed,
    _handle_command_remind true "session" ["12:30"; "Check"; "emails"] (boot ticking)
    = (Ok (String.append "✅ Reminder set for " "12:30: Check emails"), s')
    ∧ tasks s' !! id = Some task ∧ objects s' !! task = Some t
    ∧ db s' !! id = Some (row_of t)
    ∧ name t = "Reminder" ∧ schedule_type t = ONCE
    ∧ payload t = [("type", JStr "reminder"); ("message", JStr "Check emails")]
    ∧ session_id t = Some "session" ∧ enabled t = true
    ∧ get_tasks_for_session "session" s' = (Ok listed, s') ∧ task ∈ listed.
Proof.
  apply (X17_remind_registers "session" "12:30" "Check" ["emails"] 12 30
           (boot ticking)).
  - vm_compute. reflexivity.
  - vm_compute. reflexivity.
Defined.

(** Witness of X18: a task added for the session "session", listed for it. *)
Lemma X18_witness :
  ∃ id task listed s',
    Ranged.add_task "report" ONCE "2026-02-16T11:00:30" [] (Some "session")
      (boot ticking) = (Ok id, s')
    ∧ tasks s' !! id = Some task
    ∧ get_tasks_for_session "session" s' = (Ok listed, s')
    ∧ (task ∈ listed ↔ Some "session" = Some "session")
    ∧ ∀ l, l ∈ listed →
        ∃ id' t, tasks s' !! id' = Some l ∧ objects s' !! l = Some t
                 ∧ session_id t = Some "session".
Proof.
  apply (X18_tasks_of_a_session "report" ONCE "2026-02-16T11:00:30" []
           (Some "session") "session" (T0 + timedelta.seconds 30) (boot ticking)).
  vm_compute. reflexivity.
Defined.


(** Witness of X20: the one-shot task, removed before it is due. *)
Lemma X20_witness :
  ∃ s', remove_task "task-0" once_added = (Ok true, s')
    ∧ (∀ (later : list event) (now : datetime),
         0%nat ∉ tasks_to_run now (foldl (λ s e, occur e s) s' later))
    ∧ tasks (run Scheduler_init s') !! "task-0" = None.
Proof.
  apply (X20_removed_task_never_due "task-0" 0%nat report once_added).
  - vm_compute. reflexivity.
  - vm_compute. reflexivity.
Defined.

(** Witness of X22: the one-shot task, fired by a dispatch. *)
Lemma X22_witness :
  ∃ s' row,
    _execute_task 0%nat once_added = (Ok tt, s')
    ∧ db s' !! "task-0" = Some row ∧ col_enabled row = 0
    ∧ tasks (run Scheduler_init s') !! "task-0" = None
    ∧ db (run Scheduler_init s') !! "task-0" = Some row.
Proof.
  apply (X22_fired_once_is_not_reloaded 0%nat report once_added).
  - vm_compute. reflexivity.
  - reflexivity.
Defined.

(** Witness of X23: a task with a cron expression of five minutes, due one
    hour after its dispatch. *)
Lemma X23_witness :
  ∃ s' t',
    _execute_task 0%nat cron_added = (Ok tt, s') ∧ objects s' !! 0%nat = Some t'
    ∧ next_run t' = clock cron_added (pred (ticks s')) + timedelta.hours 1
    ∧ enabled t' = true.
Proof.
  apply (X23_hourly_default 0%nat every_five cron_added).
  - vm_compute. reflexivity.
  - left. reflexivity.
Defined.

Lemma live_public (c : call) (s : state) (js : list job) :
  live (mkWorld s js) → live (mkWorld (perform c s) js).
Proof. intros Hw. by apply (live_act _ (Public c) Hw). Qed.

Lemma live_overlap_0 : live overlap_0.
Proof.
  unfold overlap_0.
  change (run (set_task_handler slow)) with (perform (Call_set_task_handler slow)).
  do 3 apply live_public. unfold boot. apply live_init.
Qed.

Lemma live_overlap_2 : live overlap_2.
Proof.
  unfold overlap_2, acts. cbn [foldl].
  do 2 (apply live_act; [|discriminate]).
  unfold overlap_1. apply live_act; [|discriminate].
  unfold overlap_polled. apply live_act; [|discriminate].
  exact live_overlap_0.
Qed.

(** Witness of X5: the one-shot task while its two dispatches are in
    flight. *)
Lemma X5_witness :
  status (with_status RUNNING report) ≠ CANCELLED
  ∧ 0 ≤ run_count (with_status RUNNING report)
  ∧ (status (with_status RUNNING report) = PENDING
     → run_count (with_status RUNNING report) = 0
       ∧ last_run (with_status RUNNING report) = None)
  ∧ (status (with_status RUNNING report) = COMPLETED
     → 1 ≤ run_count (with_status RUNNING report))
  ∧ (schedule_type (with_status RUNNING report) ≠ ONCE
     → enabled (with_status RUNNING report) = true).
Proof.
  apply (X5_life_of_a_registered_task overlap_2 "task-0" 0%nat
           (with_status RUNNING report)).
  - exact live_overlap_2.
  - vm_compute. reflexivity.
  - vm_compute. reflexivity.
Defined.

(** Witness of X9: the one-shot task while two of its dispatches are in
    flight. *)
Lemma X9_witness :
  is_Some (db (scheduler overlap_2) !! "task-0")
  ∧ ∃ t, objects (scheduler overlap_2) !! 0%nat = Some t ∧ task_id t = "task-0".
Proof.
  apply (X9_registered_tasks_have_rows overlap_2 "task-0" 0%nat live_overlap_2).
  vm_compute. reflexivity.
Defined.

(** The converse fails: the end of a dispatch saves the row of a task that was
    removed meanwhile, and the row stays in the store, disabled, under an id
    that is not registered. *)
Lemma row_outlives_removal :
  tasks (scheduler overlap_removed) !! "task-0" = None
  ∧ db (scheduler (act (Public (Call_remove_task "task-0")) overlap_1)) !! "task-0"
    = None
  ∧ ∃ row, db (scheduler overlap_removed) !! "task-0" = Some row
      ∧ col_enabled row = 0.
Proof.
  split_and!; [vm_compute; reflexivity..|].
  eexists. split; vm_compute; reflexivity.
Qed.

(** Counterexample to C6 as stated: twenty nines parse as integer minutes,
    and the calculator neither returns the clock reading plus so many
    minutes nor falls back to one hour: it raises [OverflowError]. *)
Lemma C6_counterexample :
  int_of_str "99999999999999999999" = Some 99999999999999999999
  ∧ (Ranged._calculate_next_run INTERVAL "99999999999999999999" (boot frozen)).1
    = Raise OverflowError
  ∧ ¬ ∃ next,
        (Ranged._calculate_next_run INTERVAL "99999999999999999999" (boot frozen)).1
        = Ok next.
Proof.
  split_and!; [vm_compute; reflexivity..|].
  intros [next Hnext]. vm_compute in Hnext. discriminate Hnext.
Qed.

(** Counterexample to C4 as stated: the one-shot task has been dispatched
    once and its handler is awaited when the next poll selects it again; the
    handler is invoked a second time, and when both have returned the task
    has run twice.  In the other order the first dispatch has ended, and has
    left the task disabled and completed, when the dispatch the second poll
    created starts: the task is marked running and the handler is invoked
    again. *)
Lemma C4_counterexample :
  jobs overlap_1 = [Awaiting 0%nat (Ok tt)]
  ∧ calls (scheduler overlap_1) = 1%nat
  ∧ tasks_to_run (ticking 2) (scheduler overlap_1) = [0%nat]
  ∧ jobs overlap_2 = [Awaiting 0%nat (Ok tt); Awaiting 0%nat (Ok tt)]
  ∧ calls (scheduler overlap_2) = 2%nat
  ∧ jobs overlap_3 = []
  ∧ (∃ t, objects (scheduler overlap_3) !! 0%nat = Some t
       ∧ schedule_type t = ONCE ∧ status t = COMPLETED ∧ enabled t = false
       ∧ run_count t = 2)
  ∧ jobs overlap_ended = [Created 0%nat]
  ∧ calls (scheduler overlap_ended) = 1%nat
  ∧ (∃ t, objects (scheduler overlap_ended) !! 0%nat = Some t
       ∧ schedule_type t = ONCE ∧ status t = COMPLETED ∧ enabled t = false
       ∧ run_count t = 1)
  ∧ jobs overlap_late = [Awaiting 0%nat (Ok tt)]
  ∧ calls (scheduler overlap_late) = 2%nat
  ∧ ∃ t, objects (scheduler overlap_late) !! 0%nat = Some t
      ∧ status t = RUNNING ∧ enabled t = false ∧ run_count t = 1.
Proof.
  split_and!; try (vm_compute; reflexivity);
    eexists; split_and!; vm_compute; reflexivity.
Qed.

(** Witness of C4: the end of the first dispatch of the one-shot task, and
    the start of that dispatch. *)
Lemma C4_witness :
  (∃ t', objects (scheduler (act (Finish_job 0) overlap_1)) !! 0%nat = Some t'
     ∧ enabled t' = false ∧ status t' = COMPLETED
     ∧ ∀ (later : list action) (now : datetime),
         0%nat ∉ tasks_to_run now
                   (scheduler (acts later (act (Finish_job 0) overlap_1))))
  ∧ (∃ t', objects (scheduler (act (Cancel_job 0) overlap_1)) !! 0%nat = Some t'
       ∧ enabled t' = false ∧ status t' = RUNNING
       ∧ ∀ (later : list action) (now : datetime),
           0%nat ∉ tasks_to_run now
                     (scheduler (acts later (act (Cancel_job 0) overlap_1))))
  ∧ ∃ outcome t',
      jobs (act (Start_job 0) overlap_polled) !! 0%nat
      = Some (Awaiting 0%nat outcome)
      ∧ objects (scheduler (act (Start_job 0) overlap_polled)) !! 0%nat = Some t'
      ∧ status t' = RUNNING ∧ enabled t' = true
      ∧ ∀ now, tasks_to_run now (scheduler (act (Start_job 0) overlap_polled))
               = tasks_to_run now (scheduler overlap_polled).
Proof.
  split_and!.
  - apply (proj1 (C4_once_fires_once 0%nat (with_status RUNNING report) 0%nat
                    overlap_1 ltac:(vm_compute; reflexivity) eq_refl) (Ok tt)).
    vm_compute. reflexivity.
  - apply (proj1 (proj2 (C4_once_fires_once 0%nat (with_status RUNNING report)
                           0%nat overlap_1 ltac:(vm_compute; reflexivity) eq_refl))
             (Ok tt)).
    vm_compute. reflexivity.
  - apply (proj2 (proj2 (C4_once_fires_once 0%nat report 0%nat overlap_polled
                           ltac:(vm_compute; reflexivity) eq_refl))).
    vm_compute. reflexivity.
Defined.

End MoreRuns.
